(** * The CI check-run popover: subscription lifecycle and check summary

    A shallow embedding of [app/src/ui/check-runs/ci-check-run-popover.tsx].

    The component instance is a record holding [props], [state], the private
    field [statusSubscription] and the run-time context the source leaves
    implicit: the continuations of [onStatus] that are suspended at an
    [await], and the log of calls made on the dispatcher.  Every method of
    the class is a function from instances to instances.

    What the file imports and does not define is kept abstract:
    - the type of a check's conclusion, [getCheckRunConclusionAdjective] and
      the built-in [toLocaleLowerCase] are parameters of the development;
    - [setState] is React's: it merges the given fields into [state], except
      inside the constructor, where the instance has no updater yet and the
      call is ignored;
    - the promises returned by the dispatcher are settled by the
      environment, with any value, through the events [JobsAndLogURLSSettled]
      and [WorkflowRunLogsSettled]. *)

From Stdlib Require Import List String Ascii NArith Arith Bool Lia.
From Stdlib Require Import DecimalString DecimalNat DecimalN.
Import ListNotations.
Open Scope string_scope.

(** ** JavaScript values used by the component *)

Module Js.

(** A non-negative integer inside a template literal. *)
Definition ofNat (n : nat) : string := NilEmpty.string_of_uint (Nat.to_uint n).
Definition ofN (n : N) : string := NilEmpty.string_of_uint (N.to_uint n).

(** [`${v}`] for [v : string | null]. *)
Definition interpolate (v : option string) : string :=
  match v with
  | Some s => s
  | None => "null"
  end.

(** [a ?? b]. *)
Definition nullish {A : Type} (a : option A) (b : option A) : option A :=
  match a with
  | Some x => Some x
  | None => b
  end.

(** [Array.prototype.join]. *)
Definition join (sep : string) (l : list string) : string := String.concat sep l.

(** [Array.prototype.toString], as used when an array is interpolated. *)
Definition arrayToString (l : list string) : string := join "," l.

(** [l.slice(0, -1)] and [l.slice(-1)]. *)
Definition sliceInit {A : Type} (l : list A) : list A := firstn (List.length l - 1) l.
Definition sliceLast {A : Type} (l : list A) : list A := skipn (List.length l - 1) l.

(** A [Map<string, number>]: the entries in insertion order.  [set] on a
    key that is present keeps the key's position. *)
Definition StrMap := list (string * nat).

Fixpoint mapGet (m : StrMap) (k : string) : option nat :=
  match m with
  | [] => None
  | (k', v) :: m' => if String.eqb k' k then Some v else mapGet m' k
  end.

Fixpoint mapSet (m : StrMap) (k : string) (v : nat) : StrMap :=
  match m with
  | [] => [(k, v)]
  | (k', v') :: m' =>
      if String.eqb k' k then (k', v) :: m' else (k', v') :: mapSet m' k v
  end.

(** A [Set<number | null>]: the elements in insertion order. *)
Definition idEqb (a b : option N) : bool :=
  match a, b with
  | Some x, Some y => N.eqb x y
  | None, None => true
  | _, _ => false
  end.

Definition setHas (s : list (option N)) (x : option N) : bool := existsb (idEqb x) s.

Definition setAdd (s : list (option N)) (x : option N) : list (option N) :=
  if setHas s x then s else s ++ [x].

Definition newSet (l : list (option N)) : list (option N) := fold_left setAdd l [].

End Js.

(** ** Models of the imported declarations *)

Record GitHubRepository := {
  hash : string;
  htmlURL : option string
}.

(** A conclusion enum and adjective table used to run the component on
    concrete inputs. *)
Inductive SampleConclusion := Success | Failure | Neutral.

(** Modelled from the spec: the fixed mapping from a conclusion to its
    adjective, of which the source only has the import; the spec gives the
    lower-cased adjectives of success and failure. *)
Definition sampleAdjective (c : SampleConclusion) : string :=
  match c with
  | Success => "Successful"
  | Failure => "Failed"
  | Neutral => "Neutral"
  end.

Definition asciiLower (c : ascii) : ascii :=
  let n := nat_of_ascii c in
  if ((65 <=? n) && (n <=? 90))%nat then ascii_of_nat (n + 32) else c.

(** [toLocaleLowerCase] on ASCII text in a locale without special casing. *)
Fixpoint sampleLowerCase (s : string) : string :=
  match s with
  | EmptyString => EmptyString
  | String c s' => String (asciiLower c) (sampleLowerCase s')
  end.

Section Popover.

(** [APICheckConclusion | null] *)
Context {Conclusion : Type}.
Variable getCheckRunConclusionAdjective : Conclusion -> string.
Variable toLocaleLowerCase : string -> string.

(** The fields of [IRefCheck] the component reads, and its identifier and
    name. *)
Record IRefCheck := {
  id : N;
  name : string;
  conclusion : Conclusion;
  htmlUrl : option string;
  checkSuiteId : option N
}.

Record ICombinedRefCheck := {
  checks : list IRefCheck
}.

(** The synchronous query of the dispatcher.  Its other methods act on the
    outside world and are recorded as [Call]s. *)
Record Dispatcher := {
  tryGetCommitStatus : GitHubRepository -> string -> option ICombinedRefCheck
}.

Record ICICheckRunPopoverProps := {
  dispatcher : Dispatcher;
  repository : GitHubRepository;
  branchName : string;
  prNumber : N
}.

Record ICICheckRunPopoverState := {
  checkRuns : list IRefCheck;
  checkRunSummary : string;
  loadingActionLogs : bool;
  loadingActionWorkflows : bool
}.

(** What the component does to its collaborators, and what they answer.
    [d] names the disposable a subscription returns, [a] the invocation of
    [onStatus] (the activation) a promise belongs to. *)
Inductive Call :=
| SubscribeToCommitStatus (d : nat) (repo : GitHubRepository) (ref : string)
| Dispose (d : nat)
| GetCheckRunActionsJobsAndLogURLS (a : nat) (repo : GitHubRepository)
    (ref : string) (branch : string) (l : list IRefCheck)
| JobsAndLogURLSResult (a : nat) (l : list IRefCheck)
| GetActionsWorkflowRunLogs (a : nat) (repo : GitHubRepository)
    (ref : string) (l : list IRefCheck)
| WorkflowRunLogsResult (a : nat) (l : list IRefCheck)
| OpenInBrowser (url : string)
| RerequestCheckSuite (repo : GitHubRepository) (suite : N).

(** An invocation of [onStatus] suspended at its first or second [await]. *)
Inductive Suspended :=
| AwaitJobsAndLogURLS (a : nat)
| AwaitWorkflowRunLogs (a : nat).

Definition suspendedEqb (x y : Suspended) : bool :=
  match x, y with
  | AwaitJobsAndLogURLS a, AwaitJobsAndLogURLS b => Nat.eqb a b
  | AwaitWorkflowRunLogs a, AwaitWorkflowRunLogs b => Nat.eqb a b
  | _, _ => false
  end.

(** The instance.  [log] has the most recent call first. *)
Record CICheckRunPopover := {
  props : ICICheckRunPopoverProps;
  state : ICICheckRunPopoverState;
  statusSubscription : option nat;
  suspended : list Suspended;
  nextDisposable : nat;
  nextActivation : nat;
  log : list Call
}.

Definition withProps (p : ICICheckRunPopoverProps) (this : CICheckRunPopover) :=
  {| props := p; state := state this;
     statusSubscription := statusSubscription this;
     suspended := suspended this; nextDisposable := nextDisposable this;
     nextActivation := nextActivation this; log := log this |}.

Definition withState (s : ICICheckRunPopoverState) (this : CICheckRunPopover) :=
  {| props := props this; state := s;
     statusSubscription := statusSubscription this;
     suspended := suspended this; nextDisposable := nextDisposable this;
     nextActivation := nextActivation this; log := log this |}.

Definition withSubscription (d : option nat) (this : CICheckRunPopover) :=
  {| props := props this; state := state this;
     statusSubscription := d;
     suspended := suspended this; nextDisposable := nextDisposable this;
     nextActivation := nextActivation this; log := log this |}.

Definition withSuspended (l : list Suspended) (this : CICheckRunPopover) :=
  {| props := props this; state := state this;
     statusSubscription := statusSubscription this;
     suspended := l; nextDisposable := nextDisposable this;
     nextActivation := nextActivation this; log := log this |}.

Definition call (c : Call) (this : CICheckRunPopover) :=
  {| props := props this; state := state this;
     statusSubscription := statusSubscription this;
     suspended := suspended this; nextDisposable := nextDisposable this;
     nextActivation := nextActivation this; log := c :: log this |}.

Definition newDisposable (this : CICheckRunPopover) :=
  {| props := props this; state := state this;
     statusSubscription := statusSubscription this;
     suspended := suspended this; nextDisposable := S (nextDisposable this);
     nextActivation := nextActivation this; log := log this |}.

Definition newActivation (this : CICheckRunPopover) :=
  {| props := props this; state := state this;
     statusSubscription := statusSubscription this;
     suspended := suspended this; nextDisposable := nextDisposable this;
     nextActivation := S (nextActivation this); log := log this |}.

(** The partial states given to [setState] in the source. *)
Inductive StateUpdate :=
| SetCheckRuns (l : list IRefCheck)
| SetLoadingActionLogs (b : bool)
| SetLoadingActionWorkflows (b : bool).

Definition applyUpdate (s : ICICheckRunPopoverState) (u : StateUpdate) :=
  match u with
  | SetCheckRuns l =>
      {| checkRuns := l; checkRunSummary := checkRunSummary s;
         loadingActionLogs := loadingActionLogs s;
         loadingActionWorkflows := loadingActionWorkflows s |}
  | SetLoadingActionLogs b =>
      {| checkRuns := checkRuns s; checkRunSummary := checkRunSummary s;
         loadingActionLogs := b;
         loadingActionWorkflows := loadingActionWorkflows s |}
  | SetLoadingActionWorkflows b =>
      {| checkRuns := checkRuns s; checkRunSummary := checkRunSummary s;
         loadingActionLogs := loadingActionLogs s;
         loadingActionWorkflows := b |}
  end.

Definition setState (us : list StateUpdate) (this : CICheckRunPopover) :=
  withState (fold_left applyUpdate us (state this)) this.

(** ** The methods of the class *)

Definition getCommitRef (prNumber : N) : string :=
  "refs/pull/" ++ Js.ofN prNumber ++ "/head".

Definition checksOf (combinedCheck : option ICombinedRefCheck) : list IRefCheck :=
  match combinedCheck with
  | Some c => checks c
  | None => []
  end.

(** The first loop of [getCombinedCheckSummary]. *)
Definition countConclusion (conclusionMap : Js.StrMap) (check : IRefCheck) : Js.StrMap :=
  let adj := toLocaleLowerCase (getCheckRunConclusionAdjective (conclusion check)) in
  Js.mapSet conclusionMap adj
    (match Js.mapGet conclusionMap adj with Some n => n | None => 0 end + 1).

Definition conclusionMapOf (checks : list IRefCheck) : Js.StrMap :=
  fold_left countConclusion checks [].

(** The second loop: [{ count, conclusion }] for each entry. *)
Definition summaryArrayOf (conclusionMap : Js.StrMap) : list (nat * string) :=
  map (fun e => (snd e, fst e)) conclusionMap.

(** [getCombinedCheckSummary].  The last branch stands for the read of
    [summaryArray[0]] in an empty array, which [summaryArray_nonempty]
    shows is never reached. *)
Definition getCombinedCheckSummary (combinedCheck : option ICombinedRefCheck) : string :=
  match combinedCheck with
  | None => ""
  | Some combined =>
      if (List.length (checks combined) =? 0)%nat then ""
      else
        let summaryArray := summaryArrayOf (conclusionMapOf (checks combined)) in
        if (1 <? List.length summaryArray)%nat then
          let output :=
            map (fun e => Js.ofNat (fst e) ++ " " ++ snd e) summaryArray in
          Js.join ", " (Js.sliceInit output) ++ ", and "
            ++ Js.arrayToString (Js.sliceLast output) ++ " checks"
        else
          match summaryArray with
          | (count, conclusion) :: _ =>
              let pluralize := if (1 <? count)%nat then "checks" else "check" in
              Js.ofNat count ++ " " ++ conclusion ++ " " ++ pluralize
          | [] => ""
          end
  end.

Definition unsubscribe (this : CICheckRunPopover) : CICheckRunPopover :=
  match statusSubscription this with
  | Some d => withSubscription None (call (Dispose d) this)
  | None => this
  end.

Definition subscribe (this : CICheckRunPopover) : CICheckRunPopover :=
  let this := unsubscribe this in
  let d := nextDisposable this in
  withSubscription (Some d)
    (newDisposable
       (call (SubscribeToCommitStatus d (repository (props this))
                (getCommitRef (prNumber (props this)))) this)).

(** [this.setState] while the constructor runs.  React gives an instance
    its updater when the constructor has returned; until then a call of
    [setState] changes nothing.  After that every call site runs on a
    mounted component: [componentDidUpdate], the callback of a subscription
    that is disposed of on unmount, and the continuations behind the test of
    [statusSubscription]; there [setState] is the merge above. *)
Definition setStateInConstructor (us : list StateUpdate)
    (this : CICheckRunPopover) : CICheckRunPopover := this.

(** [onStatus] up to its first [await], for either [setState]. *)
Definition onStatusWith
    (setState : list StateUpdate -> CICheckRunPopover -> CICheckRunPopover)
    (check : option ICombinedRefCheck) (this : CICheckRunPopover)
  : CICheckRunPopover :=
  let statusChecks := checksOf check in
  if (List.length statusChecks =? 0)%nat then
    setState [SetCheckRuns statusChecks; SetLoadingActionLogs false;
              SetLoadingActionWorkflows false] this
  else
    let a := nextActivation this in
    withSuspended (AwaitJobsAndLogURLS a :: suspended this)
      (newActivation
         (call (GetCheckRunActionsJobsAndLogURLS a (repository (props this))
                  (getCommitRef (prNumber (props this)))
                  (branchName (props this)) statusChecks) this)).

(** [onStatus] as the subscription calls it. *)
Definition onStatus (check : option ICombinedRefCheck) (this : CICheckRunPopover)
  : CICheckRunPopover :=
  onStatusWith setState check this.

(** [onStatus] from the first [await] to the second. *)
Definition onStatusAfterJobsAndLogURLS (a : nat)
    (checkRunsWithActionsUrls : list IRefCheck) (this : CICheckRunPopover)
  : CICheckRunPopover :=
  match statusSubscription this with
  | None => this
  | Some _ =>
      let this :=
        setState [SetCheckRuns checkRunsWithActionsUrls;
                  SetLoadingActionWorkflows false] this in
      withSuspended (AwaitWorkflowRunLogs a :: suspended this)
        (call (GetActionsWorkflowRunLogs a (repository (props this))
                 (getCommitRef (prNumber (props this)))
                 checkRunsWithActionsUrls) this)
  end.

(** [onStatus] after the second [await]. *)
Definition onStatusAfterWorkflowRunLogs (checkRuns : list IRefCheck)
    (this : CICheckRunPopover) : CICheckRunPopover :=
  match statusSubscription this with
  | None => this
  | Some _ => setState [SetCheckRuns checkRuns; SetLoadingActionLogs false] this
  end.

(** The constructor.  Its last statement calls [onStatus] while the instance
    is being constructed. *)
Definition constructor (props : ICICheckRunPopoverProps) : CICheckRunPopover :=
  let combinedCheck :=
    tryGetCommitStatus (dispatcher props) (repository props)
      (getCommitRef (prNumber props)) in
  onStatusWith setStateInConstructor combinedCheck
    {| props := props;
       state := {| checkRuns := checksOf combinedCheck;
                   checkRunSummary := getCombinedCheckSummary combinedCheck;
                   loadingActionLogs := true;
                   loadingActionWorkflows := true |};
       statusSubscription := None;
       suspended := [];
       nextDisposable := 0;
       nextActivation := 0;
       log := [] |}.

(** The condition of [componentDidUpdate]. *)
Definition identityChanged (prevProps props : ICICheckRunPopoverProps) : bool :=
  negb (String.eqb (hash (repository props)) (hash (repository prevProps)))
  || negb (String.eqb (getCommitRef (prNumber props))
             (getCommitRef (prNumber prevProps))).

Definition componentDidUpdate (prevProps : ICICheckRunPopoverProps)
    (this : CICheckRunPopover) : CICheckRunPopover :=
  if identityChanged prevProps (props this) then
    let combinedCheck :=
      tryGetCommitStatus (dispatcher (props this)) (repository (props this))
        (getCommitRef (prNumber (props this))) in
    subscribe (setState [SetCheckRuns (checksOf combinedCheck)] this)
  else this.

Definition componentDidMount (this : CICheckRunPopover) := subscribe this.

Definition componentWillUnmount (this : CICheckRunPopover) := unsubscribe this.

Definition viewCheckRunsOnGitHub (checkRun : IRefCheck) (this : CICheckRunPopover)
  : CICheckRunPopover :=
  let url :=
    Js.nullish (htmlUrl checkRun)
      (Some (Js.interpolate (htmlURL (repository (props this))) ++ "/pull/"
               ++ Js.ofN (prNumber (props this)))) in
  match url with
  | None => this
  | Some url => call (OpenInBrowser url) this
  end.

Definition rerunJobs (this : CICheckRunPopover) : CICheckRunPopover :=
  let checkSuiteIds := Js.newSet (map checkSuiteId (checkRuns (state this))) in
  fold_left
    (fun this id =>
       match id with
       | None => this
       | Some id => call (RerequestCheckSuite (repository (props this)) id) this
       end)
    checkSuiteIds this.

(** ** The environment *)

Fixpoint removeFirst (x : Suspended) (l : list Suspended) : list Suspended :=
  match l with
  | [] => []
  | y :: l' => if suspendedEqb x y then l' else y :: removeFirst x l'
  end.

Definition isSuspended (x : Suspended) (this : CICheckRunPopover) : bool :=
  existsb (suspendedEqb x) (suspended this).

(** The promise awaited by activation [a] is fulfilled with [l]. *)
Definition resumeJobsAndLogURLS (a : nat) (l : list IRefCheck)
    (this : CICheckRunPopover) : CICheckRunPopover :=
  if isSuspended (AwaitJobsAndLogURLS a) this then
    onStatusAfterJobsAndLogURLS a l
      (call (JobsAndLogURLSResult a l)
         (withSuspended (removeFirst (AwaitJobsAndLogURLS a) (suspended this)) this))
  else this.

Definition resumeWorkflowRunLogs (a : nat) (l : list IRefCheck)
    (this : CICheckRunPopover) : CICheckRunPopover :=
  if isSuspended (AwaitWorkflowRunLogs a) this then
    onStatusAfterWorkflowRunLogs l
      (call (WorkflowRunLogsResult a l)
         (withSuspended (removeFirst (AwaitWorkflowRunLogs a) (suspended this)) this))
  else this.

(** What can happen to a constructed instance. *)
Inductive Event :=
| Mount
| Update (props : ICICheckRunPopoverProps)
| Unmount
| StatusDelivered (check : option ICombinedRefCheck)
| JobsAndLogURLSSettled (a : nat) (l : list IRefCheck)
| WorkflowRunLogsSettled (a : nat) (l : list IRefCheck)
| ClickRerun
| ClickView (checkRun : IRefCheck).

Definition step (this : CICheckRunPopover) (e : Event) : CICheckRunPopover :=
  match e with
  | Mount => componentDidMount this
  | Update p => componentDidUpdate (props this) (withProps p this)
  | Unmount => componentWillUnmount this
  | StatusDelivered check => onStatus check this
  | JobsAndLogURLSSettled a l => resumeJobsAndLogURLS a l this
  | WorkflowRunLogsSettled a l => resumeWorkflowRunLogs a l this
  | ClickRerun => rerunJobs this
  | ClickView c => viewCheckRunsOnGitHub c this
  end.

Definition run (this : CICheckRunPopover) (es : list Event) : CICheckRunPopover :=
  fold_left step es this.

(** ** Readings of the log *)

(** The disposables that were handed out and not disposed of. *)
Fixpoint liveSubscriptions (l : list Call) : list nat :=
  match l with
  | [] => []
  | SubscribeToCommitStatus d _ _ :: l' => d :: liveSubscriptions l'
  | Dispose d :: l' => List.remove Nat.eq_dec d (liveSubscriptions l')
  | _ :: l' => liveSubscriptions l'
  end.

Fixpoint disposals (d : nat) (l : list Call) : nat :=
  match l with
  | [] => 0
  | Dispose d' :: l' => (if Nat.eqb d d' then 1 else 0) + disposals d l'
  | _ :: l' => disposals d l'
  end.

Fixpoint subscriptions (d : nat) (l : list Call) : nat :=
  match l with
  | [] => 0
  | SubscribeToCommitStatus d' _ _ :: l' =>
      (if Nat.eqb d d' then 1 else 0) + subscriptions d l'
  | _ :: l' => subscriptions d l'
  end.

Definition isEnrichmentRequest (c : Call) : bool :=
  match c with
  | GetCheckRunActionsJobsAndLogURLS _ _ _ _ _ => true
  | GetActionsWorkflowRunLogs _ _ _ _ => true
  | _ => false
  end.

Definition isResult (c : Call) : bool :=
  match c with
  | JobsAndLogURLSResult _ _ => true
  | WorkflowRunLogsResult _ _ => true
  | _ => false
  end.

(** The calls the component made, without the answers it received. *)
Definition requests (this : CICheckRunPopover) : list Call :=
  filter (fun c => negb (isResult c)) (log this).

Definition isJobsRequestOf (a : nat) (c : Call) : bool :=
  match c with
  | GetCheckRunActionsJobsAndLogURLS a' _ _ _ _ => Nat.eqb a a'
  | _ => false
  end.

(** In a log (most recent call first): the workflow logs of an activation
    are requested right after its jobs and log URLs arrived, and for those
    very checks; jobs and log URLs only arrive for an activation that
    requested them. *)
Fixpoint phased (l : list Call) : Prop :=
  match l with
  | [] => True
  | GetActionsWorkflowRunLogs a _ _ cs :: rest =>
      (exists rest', rest = JobsAndLogURLSResult a cs :: rest') /\ phased rest
  | JobsAndLogURLSResult a _ :: rest =>
      existsb (isJobsRequestOf a) rest = true /\ phased rest
  | _ :: rest => phased rest
  end.

Definition phasesInv (this : CICheckRunPopover) : Prop :=
  phased (log this)
  /\ forall a, In (AwaitJobsAndLogURLS a) (suspended this) ->
               existsb (isJobsRequestOf a) (log this) = true.

Definition handleToList (h : option nat) : list nat :=
  match h with
  | Some d => [d]
  | None => []
  end.

Definition subscriptionInv (this : CICheckRunPopover) : Prop :=
  liveSubscriptions (log this) = handleToList (statusSubscription this)
  /\ (forall d, disposals d (log this) <= subscriptions d (log this) <= 1)
  /\ (forall d, nextDisposable this <= d -> subscriptions d (log this) = 0)
  /\ (forall d, statusSubscription this = Some d ->
                subscriptions d (log this) = 1 /\ disposals d (log this) = 0).

(** The events that remain possible once the subscription is disposed of:
    promises of earlier activations being fulfilled. *)
Definition isSettlement (e : Event) : bool :=
  match e with
  | JobsAndLogURLSSettled _ _ | WorkflowRunLogsSettled _ _ => true
  | _ => false
  end.

(** The non-null elements of a list of identifiers. *)
Fixpoint nonNull (l : list (option N)) : list N :=
  match l with
  | [] => []
  | Some i :: l' => i :: nonNull l'
  | None :: l' => nonNull l'
  end.

(** The return value of the multi-group branch of
    [getCombinedCheckSummary], as a function of [output]. *)
Definition rendered (output : list string) : string :=
  Js.join ", " (Js.sliceInit output) ++ ", and "
    ++ Js.arrayToString (Js.sliceLast output) ++ " checks".

(** ** The specification's wording, for comparison *)

Definition adjectiveOf (check : IRefCheck) : string :=
  toLocaleLowerCase (getCheckRunConclusionAdjective (conclusion check)).

(** The distinct elements of a list, each at its first occurrence. *)
Fixpoint firstSeen (l : list string) : list string :=
  match l with
  | [] => []
  | x :: l' => x :: filter (fun y => negb (String.eqb y x)) (firstSeen l')
  end.

Definition groupsSpec (checks : list IRefCheck) : list (string * nat) :=
  let adjectives := map adjectiveOf checks in
  map (fun a => (a, count_occ string_dec adjectives a)) (firstSeen adjectives).

Definition segment (group : string * nat) : string :=
  Js.ofNat (snd group) ++ " " ++ fst group.

(** ["s1, s2, ..., and sn checks"] *)
Fixpoint oxfordSpec (segments : list string) : string :=
  match segments with
  | [] => ""
  | [s] => "and " ++ s ++ " checks"
  | s :: rest => s ++ ", " ++ oxfordSpec rest
  end.

Definition summarizeSpec (checks : list IRefCheck) : string :=
  match groupsSpec checks with
  | [] => ""
  | [(adjective, count)] =>
      Js.ofNat count ++ " " ++ adjective ++ " "
        ++ (if (1 <? count)%nat then "checks" else "check")
  | groups => oxfordSpec (map segment groups)
  end.

(** "On an identity change: re-snapshot synchronously, replace the
    subscription, and restart the enrichment pass", the visible state being
    initialised from the snapshot as on creation. *)
Definition identityChangeSpec (this : CICheckRunPopover) : CICheckRunPopover :=
  let combinedCheck :=
    tryGetCommitStatus (dispatcher (props this)) (repository (props this))
      (getCommitRef (prNumber (props this))) in
  onStatus combinedCheck
    (subscribe
       (withState {| checkRuns := checksOf combinedCheck;
                     checkRunSummary := getCombinedCheckSummary combinedCheck;
                     loadingActionLogs := true;
                     loadingActionWorkflows := true |} this)).

(** "Resolve to [check.htmlUrl] if present, else a constructed
    pull-request URL using repository base URL and PR number; if neither
    resolves, take no action." *)
Definition openOnProviderSpec (check : IRefCheck) (this : CICheckRunPopover)
  : option string :=
  match htmlUrl check with
  | Some url => Some url
  | None =>
      match htmlURL (repository (props this)) with
      | Some base => Some (base ++ "/pull/" ++ Js.ofN (prNumber (props this)))
      | None => None
      end
  end.

(** ** Further readings of the instance *)

(** The [disabled] attribute that [renderRerunButton] gives the button. *)
Definition rerunButtonDisabled (this : CICheckRunPopover) : bool :=
  (List.length (checkRuns (state this)) =? 0)%nat.

(** The repository and ref for which the disposable [d] was handed out. *)
Fixpoint subscribedTo (d : nat) (l : list Call)
  : option (GitHubRepository * string) :=
  match l with
  | [] => None
  | SubscribeToCommitStatus d' repo ref :: l' =>
      if Nat.eqb d d' then Some (repo, ref) else subscribedTo d l'
  | _ :: l' => subscribedTo d l'
  end.

(** The held subscription is for the pull request and repository of the
    current props. *)
Definition tracksProps (this : CICheckRunPopover) : Prop :=
  forall d, statusSubscription this = Some d ->
    exists repo,
      subscribedTo d (log this)
      = Some (repo, getCommitRef (prNumber (props this)))
      /\ hash repo = hash (repository (props this)).

Definition jobsRequestNonEmpty (c : Call) : bool :=
  match c with
  | GetCheckRunActionsJobsAndLogURLS _ _ _ _ l => negb (List.length l =? 0)%nat
  | _ => true
  end.

(** The logs are not reported as loaded while the workflows are loading, and
    no activation waits for logs while the workflows are loading. *)
Definition flagsInv (this : CICheckRunPopover) : Prop :=
  (loadingActionLogs (state this) = false ->
   loadingActionWorkflows (state this) = false)
  /\ (forall a, In (AwaitWorkflowRunLogs a) (suspended this) ->
                loadingActionWorkflows (state this) = false).

End Popover.

(** ** Sample data *)

Module Sample.

Definition check (i : N) (c : SampleConclusion) (suite : option N)
  : IRefCheck :=
  {| id := i; name := "build"; conclusion := c; htmlUrl := None;
     checkSuiteId := suite |}.

Definition repo : GitHubRepository :=
  {| hash := "1+desktop/desktop"; htmlURL := None |}.

(** A store that has [cached] for pull request 1 and nothing else. *)
Definition store (cached : list (IRefCheck (Conclusion := SampleConclusion)))
  : Dispatcher :=
  {| tryGetCommitStatus := fun _ ref =>
       if String.eqb ref "refs/pull/1/head"
       then Some {| checks := cached |} else None |}.

Definition propsOf (cached : list IRefCheck) (pr : N)
  : ICICheckRunPopoverProps :=
  {| dispatcher := store cached; repository := repo;
     branchName := "main"; prNumber := pr |}.

Definition new (p : ICICheckRunPopoverProps) : CICheckRunPopover :=
  constructor sampleAdjective sampleLowerCase p.

Definition summary (l : list IRefCheck) : string :=
  getCombinedCheckSummary sampleAdjective sampleLowerCase (Some {| checks := l |}).

Definition build : IRefCheck := check 1 Success (Some 7%N).
Definition tests : IRefCheck := check 2 Failure (Some 7%N).
Definition lint : IRefCheck := check 3 Success None.

Definition buildWithJobs : IRefCheck :=
  {| id := 1; name := "build (jobs)"; conclusion := Success;
     htmlUrl := Some "https://github.com/desktop/desktop/runs/1";
     checkSuiteId := Some 7%N |}.

Definition buildWithLogs : IRefCheck :=
  {| id := 1; name := "build (logs)"; conclusion := Success;
     htmlUrl := Some "https://github.com/desktop/desktop/runs/1";
     checkSuiteId := Some 7%N |}.

(** Opened on pull request 1, for which [build] is cached, and mounted. *)
Definition opened : CICheckRunPopover := new (propsOf [build] 1).
Definition mounted : CICheckRunPopover := run opened [Mount].

(** Opened on pull request 1 while the store has an empty list for it. *)
Definition openedEmpty : CICheckRunPopover := new (propsOf [] 1).

(** Opened and mounted on pull request 2, for which nothing is cached and
    for which the subscription then delivers no status, and after that given
    the props of pull request 1. *)
Definition previousProps : ICICheckRunPopoverProps := propsOf [build] 2.
Definition reused : CICheckRunPopover :=
  withProps (propsOf [build] 1)
    (run (new previousProps) [Mount; StatusDelivered None]).

(** [mounted] after both phases of its first activation completed, and
    after a newer status arrived in that state. *)
Definition loaded : CICheckRunPopover :=
  run mounted [JobsAndLogURLSSettled 0 [buildWithJobs];
               WorkflowRunLogsSettled 0 [buildWithLogs]].
Definition refreshed : CICheckRunPopover :=
  step loaded (StatusDelivered (Some {| checks := [build; tests] |})).

(** [mounted] after the jobs and log URLs of its first activation arrived,
    and after it was unmounted in that state. *)
Definition awaitingLogs : CICheckRunPopover :=
  run mounted [JobsAndLogURLSSettled 0 [buildWithJobs]].
Definition tornAwaitingLogs : CICheckRunPopover := step awaitingLogs Unmount.

(** [mounted] after a newer status arrived and was enriched with jobs,
    while the first activation is still waiting for its own. *)
Definition superseded : CICheckRunPopover :=
  run mounted [StatusDelivered (Some {| checks := [build; tests] |});
               JobsAndLogURLSSettled 1 [buildWithJobs; tests]].

(** [openedEmpty] after it was mounted, a status with [build] arrived and
    its jobs and log URLs were fetched. *)
Definition filled : CICheckRunPopover :=
  run openedEmpty [Mount; StatusDelivered (Some {| checks := [build] |});
                   JobsAndLogURLSSettled 0 [buildWithJobs]].

(** The props of [mounted] with another branch name. *)
Definition renamedProps : ICICheckRunPopoverProps :=
  {| dispatcher := store [build]; repository := repo;
     branchName := "feature"; prNumber := 1 |}.

End Sample.

(** * Properties *)

(** ** Strings, maps and sets *)

Section JsFacts.

Lemma append_assoc (a b c : string) : (a ++ b) ++ c = a ++ (b ++ c).
Proof. induction a as [|x a IH]; simpl; [reflexivity | now rewrite IH]. Qed.

Lemma length_append (a b : string) :
  String.length (a ++ b) = String.length a + String.length b.
Proof. induction a as [|c a IH]; simpl; [reflexivity | now rewrite IH]. Qed.

Lemma append_cancel_l (p a b : string) : p ++ a = p ++ b -> a = b.
Proof.
  induction p as [|c p IH]; simpl; intros H; [assumption|].
  inversion H. auto.
Qed.

Lemma append_cancel_r (s a b : string) : a ++ s = b ++ s -> a = b.
Proof.
  revert b. induction a as [|c a IH]; intros [|c' b] H; simpl in H.
  - reflexivity.
  - apply (f_equal String.length) in H. simpl in H.
    rewrite length_append in H. lia.
  - apply (f_equal String.length) in H. simpl in H.
    rewrite length_append in H. lia.
  - inversion H. f_equal. auto.
Qed.

Lemma ofN_inj (m n : N) : Js.ofN m = Js.ofN n -> m = n.
Proof.
  unfold Js.ofN. intros H. apply DecimalN.Unsigned.to_uint_inj.
  apply (f_equal NilEmpty.uint_of_string) in H.
  rewrite !NilEmpty.usu in H. congruence.
Qed.

Lemma sliceInit_cons {A : Type} (x y : A) (l : list A) :
  Js.sliceInit (x :: y :: l) = x :: Js.sliceInit (y :: l).
Proof. unfold Js.sliceInit. simpl. now rewrite Nat.sub_0_r. Qed.

Lemma sliceLast_cons {A : Type} (x y : A) (l : list A) :
  Js.sliceLast (x :: y :: l) = Js.sliceLast (y :: l).
Proof. unfold Js.sliceLast. simpl. now rewrite Nat.sub_0_r. Qed.

(** [firstSeen] keeps exactly the elements of the list, once each, and
    scanning one more element appends it unless it was seen. *)
Lemma firstSeen_In (x : string) (l : list string) :
  In x (firstSeen l) <-> In x l.
Proof.
  induction l as [|y l IH]; simpl; [tauto|].
  rewrite filter_In, IH.
  destruct (String.eqb_spec x y) as [->|Hne]; simpl.
  - split; auto.
  - split.
    + intros [H|[H _]]; auto.
    + intros [H|H]; [now left | right; split; auto].
Qed.

Lemma firstSeen_NoDup (l : list string) : NoDup (firstSeen l).
Proof.
  induction l as [|y l IH]; simpl; constructor.
  - rewrite filter_In. intros [_ H].
    now rewrite String.eqb_refl in H.
  - now apply NoDup_filter.
Qed.

Lemma firstSeen_snoc (l : list string) (x : string) :
  firstSeen (l ++ [x]) =
  if existsb (String.eqb x) l then firstSeen l else (firstSeen l ++ [x])%list.
Proof.
  induction l as [|y l IH]; simpl; [reflexivity|].
  rewrite IH.
  destruct (String.eqb_spec x y) as [->|Hne]; simpl.
  - destruct (existsb (String.eqb y) l); [reflexivity|].
    rewrite filter_app. simpl. rewrite String.eqb_refl. simpl.
    now rewrite app_nil_r.
  - destruct (existsb (String.eqb x) l); [reflexivity|].
    rewrite filter_app. simpl.
    destruct (String.eqb_spec x y); [contradiction|reflexivity].
Qed.

Lemma existsb_eqb_In (x : string) (l : list string) :
  existsb (String.eqb x) l = true <-> In x l.
Proof.
  rewrite existsb_exists. split.
  - intros [y [Hy He]]. apply String.eqb_eq in He. now subst.
  - intros H. exists x. split; [assumption | apply String.eqb_refl].
Qed.

(** A map whose entries are [(k, f k)] for the keys [ks]. *)
Variable f : string -> nat.

Lemma mapGet_tabulate_in (ks : list string) (k : string) :
  In k ks -> Js.mapGet (map (fun a => (a, f a)) ks) k = Some (f k).
Proof.
  induction ks as [|k' ks IH]; simpl; [tauto|].
  intros H. destruct (String.eqb_spec k' k) as [->|Hne]; [reflexivity|].
  destruct H as [H|H]; [contradiction | auto].
Qed.

Lemma mapGet_tabulate_notin (ks : list string) (k : string) :
  ~ In k ks -> Js.mapGet (map (fun a => (a, f a)) ks) k = None.
Proof.
  induction ks as [|k' ks IH]; simpl; [reflexivity|].
  intros H. destruct (String.eqb_spec k' k) as [->|Hne]; [tauto|].
  apply IH. tauto.
Qed.

Lemma mapSet_tabulate_in (ks : list string) (k : string) (v : nat) :
  NoDup ks -> In k ks ->
  Js.mapSet (map (fun a => (a, f a)) ks) k v =
  map (fun a => (a, if String.eqb a k then v else f a)) ks.
Proof.
  induction ks as [|k' ks IH]; simpl; [tauto|].
  intros Hnd Hin. inversion Hnd as [|? ? Hk' Hnd']; subst.
  destruct (String.eqb_spec k' k) as [->|Hne].
  - f_equal. apply map_ext_in. intros a Ha.
    destruct (String.eqb_spec a k) as [->|]; [contradiction|reflexivity].
  - f_equal. apply IH; [assumption|].
    destruct Hin; [contradiction|assumption].
Qed.

Lemma mapSet_tabulate_notin (ks : list string) (k : string) (v : nat) :
  ~ In k ks ->
  Js.mapSet (map (fun a => (a, f a)) ks) k v =
  (map (fun a => (a, f a)) ks ++ [(k, v)])%list.
Proof.
  induction ks as [|k' ks IH]; simpl; [reflexivity|].
  intros H. destruct (String.eqb_spec k' k) as [->|Hne]; [tauto|].
  f_equal. apply IH. tauto.
Qed.

Lemma idEqb_eq (a b : option N) : Js.idEqb a b = true <-> a = b.
Proof.
  destruct a as [x|], b as [y|]; simpl; try (split; congruence).
  rewrite N.eqb_eq. split; congruence.
Qed.

Lemma setHas_In (s : list (option N)) (x : option N) :
  Js.setHas s x = true <-> In x s.
Proof.
  unfold Js.setHas. rewrite existsb_exists. split.
  - intros [y [Hy He]]. apply idEqb_eq in He. now subst.
  - intros H. exists x. split; [assumption | now apply idEqb_eq].
Qed.

Lemma setAdd_fold (l : list (option N)) : forall s,
  NoDup s ->
  NoDup (fold_left Js.setAdd l s)
  /\ forall x, In x (fold_left Js.setAdd l s) <-> In x s \/ In x l.
Proof.
  induction l as [|y l IH]; intros s Hs; simpl.
  - split; [assumption | tauto].
  - assert (Hn : NoDup (Js.setAdd s y)).
    { unfold Js.setAdd. destruct (Js.setHas s y) eqn:E; [assumption|].
      apply NoDup_app; [assumption | repeat constructor; simpl; tauto |].
      intros z Hz [<-|[]]. apply setHas_In in Hz. congruence. }
    destruct (IH _ Hn) as [H1 H2]. split; [assumption|].
    intros x. rewrite H2. unfold Js.setAdd.
    destruct (Js.setHas s y) eqn:E.
    + apply setHas_In in E. split; [tauto|].
      intros [H|[<-|H]]; tauto.
    + rewrite in_app_iff. simpl. tauto.
Qed.

Lemma newSet_NoDup (l : list (option N)) : NoDup (Js.newSet l).
Proof. apply setAdd_fold. constructor. Qed.

Lemma newSet_In (l : list (option N)) (x : option N) :
  In x (Js.newSet l) <-> In x l.
Proof.
  unfold Js.newSet. destruct (setAdd_fold l [] (NoDup_nil _)) as [_ H].
  rewrite H. simpl. tauto.
Qed.

Lemma nonNull_In (l : list (option N)) (i : N) :
  In i (nonNull l) <-> In (Some i) l.
Proof.
  induction l as [|[j|] l IH]; simpl; [tauto| |].
  - rewrite IH. split; intros [H|H]; auto; left; congruence.
  - rewrite IH. split; [auto | intros [H|H]; [discriminate|auto]].
Qed.

Lemma nonNull_NoDup (l : list (option N)) : NoDup l -> NoDup (nonNull l).
Proof.
  induction 1 as [|[j|] l Hx Hl IH]; simpl; [constructor| |assumption].
  constructor; [|assumption]. now rewrite nonNull_In.
Qed.

Lemma rendered_cons (x y : string) (rest : list string) :
  rendered (x :: y :: rest) =
  match rest with
  | [] => x ++ ", and " ++ y ++ " checks"
  | _ => x ++ ", " ++ rendered (y :: rest)
  end.
Proof.
  destruct rest as [|z rest]; [reflexivity|].
  unfold rendered. rewrite (sliceInit_cons x y), (sliceLast_cons x y).
  rewrite (sliceInit_cons y z). unfold Js.join at 1.
  cbn [String.concat]. fold (Js.join ", " (y :: Js.sliceInit (z :: rest))).
  now rewrite !append_assoc.
Qed.

Lemma rendered_oxford (output : list string) :
  2 <= List.length output -> rendered output = oxfordSpec output.
Proof.
  induction output as [|x output IH]; [simpl; lia|].
  destruct output as [|y rest]; [simpl; lia|]. intros _.
  rewrite rendered_cons. destruct rest as [|z rest]; [reflexivity|].
  rewrite IH by (simpl; lia). reflexivity.
Qed.

End JsFacts.

(** ** The summary *)

Section Summary.

Context {Conclusion : Type}.
Variable getCheckRunConclusionAdjective : Conclusion -> string.
Variable toLocaleLowerCase : string -> string.

Local Abbreviation adjective :=
  (adjectiveOf getCheckRunConclusionAdjective toLocaleLowerCase).
Local Abbreviation conclusionMap :=
  (conclusionMapOf getCheckRunConclusionAdjective toLocaleLowerCase).
Local Abbreviation groups :=
  (groupsSpec getCheckRunConclusionAdjective toLocaleLowerCase).
Local Abbreviation summary :=
  (getCombinedCheckSummary getCheckRunConclusionAdjective toLocaleLowerCase).

Lemma conclusionMapOf_snoc (l : list IRefCheck) (c : IRefCheck) :
  conclusionMap (l ++ [c]) =
  countConclusion getCheckRunConclusionAdjective toLocaleLowerCase
    (conclusionMap l) c.
Proof. unfold conclusionMapOf. now rewrite fold_left_app. Qed.

(** The map built by the first loop has one entry per distinct adjective,
    in the order of first occurrence, with the number of occurrences. *)
Lemma conclusionMapOf_groups (l : list IRefCheck) : conclusionMap l = groups l.
Proof.
  induction l as [|c l IH] using rev_ind; [reflexivity|].
  rewrite conclusionMapOf_snoc, IH. unfold countConclusion, groupsSpec.
  fold (adjective c). rewrite map_app.
  change (map adjective [c]) with [adjective c].
  set (adjs := map adjective l). set (a := adjective c).
  rewrite firstSeen_snoc.
  destruct (existsb (String.eqb a) adjs) eqn:E.
  - apply existsb_eqb_In in E. apply firstSeen_In in E.
    rewrite mapGet_tabulate_in by assumption.
    rewrite mapSet_tabulate_in by (auto using firstSeen_NoDup).
    apply map_ext. intros b. f_equal.
    rewrite count_occ_app. simpl.
    destruct (String.eqb_spec b a) as [->|Hne].
    + destruct (string_dec a a); [reflexivity|contradiction].
    + destruct (string_dec a b); [now subst|lia].
  - assert (Hn : ~ In a adjs).
    { intros H. apply existsb_eqb_In in H. congruence. }
    assert (Hn' : ~ In a (firstSeen adjs)) by now rewrite firstSeen_In.
    rewrite mapGet_tabulate_notin by assumption.
    rewrite mapSet_tabulate_notin by assumption.
    rewrite map_app. simpl. f_equal.
    + apply map_ext_in. intros b Hb. f_equal.
      rewrite count_occ_app. simpl.
      destruct (string_dec a b); [subst; contradiction|lia].
    + f_equal. f_equal. rewrite count_occ_app. simpl.
      rewrite (count_occ_not_In string_dec adjs a) in Hn. rewrite Hn.
      destruct (string_dec a a); [reflexivity|contradiction].
Qed.

Lemma groupsSpec_nonempty (l : list IRefCheck) : l <> [] -> groups l <> [].
Proof. destruct l as [|c l]; [congruence|]. intros _. discriminate. Qed.

(** [summaryArray[0]] is only read when it exists. *)
Lemma summaryArray_nonempty (l : list IRefCheck) :
  l <> [] -> summaryArrayOf (conclusionMap l) <> [].
Proof.
  intros H. rewrite conclusionMapOf_groups. unfold summaryArrayOf.
  pose proof (groupsSpec_nonempty l H) as G.
  destruct (groups l); [congruence|discriminate].
Qed.

Lemma summaryArray_output (m : Js.StrMap) :
  map (fun e => Js.ofNat (fst e) ++ " " ++ snd e) (summaryArrayOf m) =
  map segment m.
Proof. unfold summaryArrayOf. rewrite map_map. reflexivity. Qed.

Lemma getCombinedCheckSummary_summarizeSpec (combined : ICombinedRefCheck) :
  summary (Some combined) =
  summarizeSpec getCheckRunConclusionAdjective toLocaleLowerCase (checks combined).
Proof.
  unfold getCombinedCheckSummary, summarizeSpec.
  rewrite summaryArray_output. unfold summaryArrayOf at 1. rewrite length_map.
  rewrite conclusionMapOf_groups.
  destruct (checks combined) as [|c l] eqn:E; [reflexivity|].
  cbn [List.length Nat.eqb].
  pose proof (groupsSpec_nonempty (c :: l)) as Hne.
  destruct (groups (c :: l)) as [|[a n] [|g gs]].
  - now elim Hne.
  - reflexivity.
  - cbn [List.length Nat.ltb Nat.leb].
    apply (rendered_oxford (map segment ((a, n) :: g :: gs))).
    simpl. lia.
Qed.

(** C7. [getCombinedCheckSummary] returns the empty string for no status
    and for an empty check list.  Otherwise the map it builds has one entry
    per distinct lower-cased conclusion adjective, in the order in which
    the adjectives are first seen from left to right, each with its number
    of checks.  One group is rendered as "<count> <adjective> check", with
    "checks" when the count exceeds one.  Several groups are rendered as
    the comma-separated groups with ", and " before the last one and
    " checks" at the end, whatever the count of the last group: one
    successful and one failed check give
    "1 successful, and 1 failed checks". *)
Theorem getCombinedCheckSummary_correct :
  summary None = ""
  /\ (forall combined, checks combined = [] -> summary (Some combined) = "")
  /\ (forall combined,
      conclusionMap (checks combined)
      = map (fun a => (a, count_occ string_dec (map adjective (checks combined)) a))
          (firstSeen (map adjective (checks combined))))
  /\ (forall combined a n,
      conclusionMap (checks combined) = [(a, n)] ->
      summary (Some combined)
      = Js.ofNat n ++ " " ++ a ++ " " ++ (if (1 <? n)%nat then "checks" else "check"))
  /\ (forall combined,
      2 <= List.length (conclusionMap (checks combined)) ->
      summary (Some combined)
      = oxfordSpec (map segment (conclusionMap (checks combined))))
  /\ (forall c1 c2,
      adjective c1 = "successful" -> adjective c2 = "failed" ->
      summary (Some {| checks := [c1; c2] |})
      = "1 successful, and 1 failed checks").
Proof.
  split; [reflexivity|]. split; [|split; [|split; [|split]]].
  - intros combined H. unfold getCombinedCheckSummary. now rewrite H.
  - intros combined. apply conclusionMapOf_groups.
  - intros combined a n H. rewrite getCombinedCheckSummary_summarizeSpec.
    unfold summarizeSpec. rewrite <- conclusionMapOf_groups, H. reflexivity.
  - intros combined H. rewrite getCombinedCheckSummary_summarizeSpec.
    unfold summarizeSpec. rewrite <- conclusionMapOf_groups.
    destruct (conclusionMap (checks combined)) as [|[a n] [|g gs]];
      simpl in H; try lia. reflexivity.
  - intros c1 c2 H1 H2. rewrite getCombinedCheckSummary_summarizeSpec.
    unfold summarizeSpec, groupsSpec. simpl. rewrite H1, H2. reflexivity.
Qed.

End Summary.

(** ** The component *)

Section Lifecycle.

Context {Conclusion : Type}.
Variable getCheckRunConclusionAdjective : Conclusion -> string.
Variable toLocaleLowerCase : string -> string.

Local Abbreviation Popover := (@CICheckRunPopover Conclusion).
Local Abbreviation new :=
  (constructor getCheckRunConclusionAdjective toLocaleLowerCase).
Local Abbreviation rerunLoop :=
  (fold_left
     (fun (this : Popover) id =>
        match id with
        | None => this
        | Some id => call (RerequestCheckSuite (repository (props this)) id) this
        end)).

(** *** What each method does to the instance *)

Lemma unsubscribe_handle (this : Popover) :
  statusSubscription (unsubscribe this) = None.
Proof.
  unfold unsubscribe.
  destruct (statusSubscription this) eqn:E; [reflexivity | exact E].
Qed.

Lemma unsubscribe_state (this : Popover) : state (unsubscribe this) = state this.
Proof. unfold unsubscribe. destruct (statusSubscription this); reflexivity. Qed.

Lemma subscribe_unfold (this : Popover) :
  subscribe this =
  {| props := props this; state := state this;
     statusSubscription := Some (nextDisposable this);
     suspended := suspended this;
     nextDisposable := S (nextDisposable this);
     nextActivation := nextActivation this;
     log := SubscribeToCommitStatus (nextDisposable this)
              (repository (props this)) (getCommitRef (prNumber (props this)))
              :: (map Dispose (handleToList (statusSubscription this))
                    ++ log this)%list |}.
Proof.
  unfold subscribe, unsubscribe.
  destruct (statusSubscription this); reflexivity.
Qed.

Lemma onStatus_empty (check : option ICombinedRefCheck) (this : Popover) :
  checksOf check = [] ->
  onStatus check this =
  withState {| checkRuns := [];
               checkRunSummary := checkRunSummary (state this);
               loadingActionLogs := false;
               loadingActionWorkflows := false |} this.
Proof. intros H. unfold onStatus, onStatusWith. rewrite H. reflexivity. Qed.

Lemma isSuspended_In (x : Suspended) (this : Popover) :
  isSuspended x this = true <-> In x (suspended this).
Proof.
  unfold isSuspended. rewrite existsb_exists. split.
  - intros [y [Hy He]]. destruct x, y; simpl in He; try discriminate;
      apply Nat.eqb_eq in He; now subst.
  - intros H. exists x. split; [assumption|].
    destruct x; simpl; apply Nat.eqb_refl.
Qed.

Lemma removeFirst_In (x y : Suspended) (l : list Suspended) :
  In y (removeFirst x l) -> In y l.
Proof.
  induction l as [|z l IH]; simpl; [tauto|].
  destruct (suspendedEqb x z); simpl; tauto.
Qed.

Lemma resumeJobsAndLogURLS_live (a d : nat) (l : list IRefCheck) (this : Popover) :
  isSuspended (AwaitJobsAndLogURLS a) this = true ->
  statusSubscription this = Some d ->
  resumeJobsAndLogURLS a l this =
  {| props := props this;
     state := {| checkRuns := l;
                 checkRunSummary := checkRunSummary (state this);
                 loadingActionLogs := loadingActionLogs (state this);
                 loadingActionWorkflows := false |};
     statusSubscription := Some d;
     suspended := AwaitWorkflowRunLogs a
                    :: removeFirst (AwaitJobsAndLogURLS a) (suspended this);
     nextDisposable := nextDisposable this;
     nextActivation := nextActivation this;
     log := GetActionsWorkflowRunLogs a (repository (props this))
              (getCommitRef (prNumber (props this))) l
              :: JobsAndLogURLSResult a l :: log this |}.
Proof.
  intros Hs Hd. unfold resumeJobsAndLogURLS. rewrite Hs.
  unfold onStatusAfterJobsAndLogURLS. simpl. rewrite Hd.
  unfold withSuspended, call, setState, withState. simpl.
  rewrite ?Hd. reflexivity.
Qed.

Lemma resumeWorkflowRunLogs_live (a d : nat) (l : list IRefCheck) (this : Popover) :
  isSuspended (AwaitWorkflowRunLogs a) this = true ->
  statusSubscription this = Some d ->
  resumeWorkflowRunLogs a l this =
  {| props := props this;
     state := {| checkRuns := l;
                 checkRunSummary := checkRunSummary (state this);
                 loadingActionLogs := false;
                 loadingActionWorkflows := loadingActionWorkflows (state this) |};
     statusSubscription := Some d;
     suspended := removeFirst (AwaitWorkflowRunLogs a) (suspended this);
     nextDisposable := nextDisposable this;
     nextActivation := nextActivation this;
     log := WorkflowRunLogsResult a l :: log this |}.
Proof.
  intros Hs Hd. unfold resumeWorkflowRunLogs. rewrite Hs.
  unfold onStatusAfterWorkflowRunLogs. simpl. rewrite Hd.
  unfold withSuspended, call, setState, withState. simpl.
  rewrite ?Hd. reflexivity.
Qed.

Lemma resumeJobsAndLogURLS_null (a : nat) (l : list IRefCheck) (this : Popover) :
  isSuspended (AwaitJobsAndLogURLS a) this = true ->
  statusSubscription this = None ->
  resumeJobsAndLogURLS a l this =
  call (JobsAndLogURLSResult a l)
    (withSuspended (removeFirst (AwaitJobsAndLogURLS a) (suspended this)) this).
Proof.
  intros Hs Hd. unfold resumeJobsAndLogURLS. rewrite Hs.
  unfold onStatusAfterJobsAndLogURLS. simpl. rewrite Hd. reflexivity.
Qed.

Lemma resumeWorkflowRunLogs_null (a : nat) (l : list IRefCheck) (this : Popover) :
  isSuspended (AwaitWorkflowRunLogs a) this = true ->
  statusSubscription this = None ->
  resumeWorkflowRunLogs a l this =
  call (WorkflowRunLogsResult a l)
    (withSuspended (removeFirst (AwaitWorkflowRunLogs a) (suspended this)) this).
Proof.
  intros Hs Hd. unfold resumeWorkflowRunLogs. rewrite Hs.
  unfold onStatusAfterWorkflowRunLogs. simpl. rewrite Hd. reflexivity.
Qed.

Lemma rerunLoop_spec (ids : list (option N)) : forall this : Popover,
  let this' := rerunLoop ids this in
  log this'
  = (map (RerequestCheckSuite (repository (props this))) (rev (nonNull ids))
       ++ log this)%list
  /\ props this' = props this
  /\ state this' = state this
  /\ statusSubscription this' = statusSubscription this
  /\ suspended this' = suspended this.
Proof.
  induction ids as [|[i|] ids IH]; intros this; simpl; auto.
  destruct (IH (call (RerequestCheckSuite (repository (props this)) i) this))
    as (H1 & H2 & H3 & H4 & H5).
  rewrite H1, H2, H3, H4, H5. simpl. repeat split.
  rewrite map_app, <- app_assoc. reflexivity.
Qed.

Lemma viewCheckRunsOnGitHub_opens (checkRun : IRefCheck) (this : Popover) :
  viewCheckRunsOnGitHub checkRun this =
  call (OpenInBrowser
          (match htmlUrl checkRun with
           | Some url => url
           | None => Js.interpolate (htmlURL (repository (props this)))
                       ++ "/pull/" ++ Js.ofN (prNumber (props this))
           end)) this.
Proof. unfold viewCheckRunsOnGitHub. destruct (htmlUrl checkRun); reflexivity. Qed.

(** Whenever a URL resolves, it is the one that is opened. *)
Lemma viewCheckRunsOnGitHub_resolved (checkRun : IRefCheck) (this : Popover)
    (url : string) :
  openOnProviderSpec checkRun this = Some url ->
  viewCheckRunsOnGitHub checkRun this = call (OpenInBrowser url) this.
Proof.
  rewrite viewCheckRunsOnGitHub_opens. unfold openOnProviderSpec.
  destruct (htmlUrl checkRun); [congruence|].
  destruct (htmlURL (repository (props this))); [|discriminate].
  simpl. congruence.
Qed.

(** *** The summary after construction *)

Lemma step_checkRunSummary (this : Popover) (e : Event) :
  checkRunSummary (state (step this e)) = checkRunSummary (state this).
Proof.
  destruct e as [|p| |check|a l|a l| |c]; cbn [step].
  - unfold componentDidMount. now rewrite subscribe_unfold.
  - unfold componentDidUpdate.
    destruct (identityChanged _ _); [|reflexivity].
    now rewrite subscribe_unfold.
  - unfold componentWillUnmount. now rewrite unsubscribe_state.
  - unfold onStatus, onStatusWith. destruct (List.length _ =? 0)%nat; reflexivity.
  - unfold resumeJobsAndLogURLS.
    destruct (isSuspended _ this); [|reflexivity].
    unfold onStatusAfterJobsAndLogURLS. simpl.
    destruct (statusSubscription this); reflexivity.
  - unfold resumeWorkflowRunLogs.
    destruct (isSuspended _ this); [|reflexivity].
    unfold onStatusAfterWorkflowRunLogs. simpl.
    destruct (statusSubscription this); reflexivity.
  - unfold rerunJobs.
    destruct (rerunLoop_spec
                (Js.newSet (map checkSuiteId (checkRuns (state this)))) this)
      as (_ & _ & H & _).
    now rewrite H.
  - now rewrite viewCheckRunsOnGitHub_opens.
Qed.

(** The summary is the one of the snapshot read by the constructor, for as
    long as the instance lives. *)
Lemma checkRunSummary_fixed (p : ICICheckRunPopoverProps) (es : list Event) :
  checkRunSummary (state (run (new p) es))
  = getCombinedCheckSummary getCheckRunConclusionAdjective toLocaleLowerCase
      (tryGetCommitStatus (dispatcher p) (repository p)
         (getCommitRef (prNumber p))).
Proof.
  assert (H : forall this : Popover,
             checkRunSummary (state (run this es)) = checkRunSummary (state this)).
  { induction es as [|e es IH]; intros this; [reflexivity|].
    change (run this (e :: es)) with (run (step this e) es).
    now rewrite IH, step_checkRunSummary. }
  rewrite H. unfold constructor, onStatusWith.
  destruct (List.length _ =? 0)%nat; reflexivity.
Qed.

(** *** The empty status *)

(** A status that is null or has no checks, delivered through the
    subscription, empties the check list and clears both loading flags; no
    request is made and nothing is left suspended by that invocation. *)
Lemma onStatus_empty_delivered
    (check : option ICombinedRefCheck) (this : Popover) :
  checksOf check = [] ->
  let this' := step this (StatusDelivered check) in
  checkRuns (state this') = []
  /\ loadingActionLogs (state this') = false
  /\ loadingActionWorkflows (state this') = false
  /\ suspended this' = suspended this
  /\ log this' = log this.
Proof.
  intros H. simpl. rewrite onStatus_empty by assumption. repeat split.
Qed.

(** The same status read by the constructor: the check list is empty and
    nothing is requested or suspended, but the [setState] that would clear
    the loading flags is ignored, and both stay true. *)
Lemma constructor_empty (p : ICICheckRunPopoverProps) :
  checksOf (tryGetCommitStatus (dispatcher p) (repository p)
              (getCommitRef (prNumber p))) = [] ->
  let this' := new p in
  checkRuns (state this') = []
  /\ loadingActionLogs (state this') = true
  /\ loadingActionWorkflows (state this') = true
  /\ suspended this' = []
  /\ log this' = [].
Proof.
  intros H. unfold constructor, onStatusWith, setStateInConstructor.
  rewrite H. repeat split.
Qed.

(** *** Teardown *)

Lemma settle_unsubscribed (this : Popover) (e : Event) :
  isSettlement e = true -> statusSubscription this = None ->
  let this' := step this e in
  state this' = state this
  /\ statusSubscription this' = None
  /\ requests this' = requests this.
Proof.
  intros He Hs. destruct e as [|p| |check|a l|a l| |c]; try discriminate; simpl.
  - unfold resumeJobsAndLogURLS.
    destruct (isSuspended (AwaitJobsAndLogURLS a) this); [|auto].
    unfold onStatusAfterJobsAndLogURLS. simpl. rewrite Hs. auto.
  - unfold resumeWorkflowRunLogs.
    destruct (isSuspended (AwaitWorkflowRunLogs a) this); [|auto].
    unfold onStatusAfterWorkflowRunLogs. simpl. rewrite Hs. auto.
Qed.

Lemma settlements_unsubscribed (es : list Event) : forall this : Popover,
  forallb isSettlement es = true -> statusSubscription this = None ->
  state (run this es) = state this
  /\ statusSubscription (run this es) = None
  /\ requests (run this es) = requests this.
Proof.
  induction es as [|e es IH]; intros this Hes Hs; simpl; [auto|].
  simpl in Hes. apply andb_prop in Hes. destruct Hes as [He Hes].
  destruct (settle_unsubscribed this e He Hs) as (H1 & H2 & H3).
  destruct (IH (step this e) Hes H2) as (K1 & K2 & K3).
  unfold run in *. rewrite K1, K2, K3. auto.
Qed.

(** C4. Once [componentWillUnmount] has run, the subscription handle is
    null, and whatever promises of earlier enrichment calls are fulfilled
    afterwards, in any number and order and with any results, the check
    list, the summary and both loading flags stay as they were, and no
    further request is made. *)
Theorem no_mutation_after_unmount (this : Popover) (es : list Event) :
  forallb isSettlement es = true ->
  let torn := step this Unmount in
  statusSubscription torn = None
  /\ state torn = state this
  /\ state (run torn es) = state this
  /\ requests (run torn es) = requests torn.
Proof.
  intros Hes. simpl. unfold componentWillUnmount.
  pose proof (unsubscribe_handle this) as Hs.
  destruct (settlements_unsubscribed es (unsubscribe this) Hes Hs)
    as (H1 & _ & H3).
  rewrite H1, unsubscribe_state. auto.
Qed.

(** *** The two phases *)

Lemma rerunLoop_phases (ids : list (option N)) : forall this : Popover,
  phasesInv this -> phasesInv (rerunLoop ids this).
Proof. induction ids as [|[i|] ids IH]; intros this H; simpl; auto. Qed.

Lemma unsubscribe_phases (this : Popover) :
  phasesInv this -> phasesInv (unsubscribe this).
Proof.
  unfold unsubscribe. destruct (statusSubscription this); [|auto].
  intros [H1 H2]. split; [exact H1|]. intros a Ha. simpl. apply H2. exact Ha.
Qed.

Lemma subscribe_phases (this : Popover) :
  phasesInv this -> phasesInv (subscribe this).
Proof.
  intros H. apply unsubscribe_phases in H. unfold subscribe.
  destruct H as [H1 H2]. split; [exact H1|].
  intros a Ha. simpl. apply H2. exact Ha.
Qed.

Lemma onStatus_phases (check : option ICombinedRefCheck) (this : Popover) :
  phasesInv this -> phasesInv (onStatus check this).
Proof.
  intros [H1 H2]. unfold onStatus, onStatusWith.
  destruct (List.length (checksOf check) =? 0)%nat; split; simpl; auto.
  intros a [Ha|Ha].
  - inversion Ha; subst. now rewrite Nat.eqb_refl.
  - rewrite H2 by assumption. apply orb_true_r.
Qed.

Lemma step_phases (this : Popover) (e : Event) :
  phasesInv this -> phasesInv (step this e).
Proof.
  intros H. destruct e as [|p| |check|a l|a l| |c]; simpl.
  - now apply subscribe_phases.
  - unfold componentDidUpdate.
    destruct (identityChanged (props this) (props (withProps p this)));
      [apply subscribe_phases|]; exact H.
  - now apply unsubscribe_phases.
  - now apply onStatus_phases.
  - unfold resumeJobsAndLogURLS.
    destruct (isSuspended (AwaitJobsAndLogURLS a) this) eqn:E; [|exact H].
    apply isSuspended_In in E. destruct H as [H1 H2].
    unfold onStatusAfterJobsAndLogURLS. simpl.
    destruct (statusSubscription this); split; simpl;
      repeat split; eauto.
    + intros b [Hb|Hb]; [discriminate|].
      apply removeFirst_In in Hb. auto.
    + intros b Hb. apply removeFirst_In in Hb. auto.
  - unfold resumeWorkflowRunLogs.
    destruct (isSuspended (AwaitWorkflowRunLogs a) this) eqn:E; [|exact H].
    destruct H as [H1 H2]. unfold onStatusAfterWorkflowRunLogs. simpl.
    destruct (statusSubscription this); split; simpl; auto;
      intros b Hb; apply removeFirst_In in Hb; auto.
  - now apply rerunLoop_phases.
  - unfold viewCheckRunsOnGitHub.
    destruct (Js.nullish _ _); [|exact H].
    destruct H as [H1 H2]. split; [exact H1|]. intros b Hb. simpl. auto.
Qed.

Lemma new_phases (p : ICICheckRunPopoverProps) : phasesInv (new p).
Proof.
  unfold constructor, onStatusWith.
  destruct (List.length _ =? 0)%nat; split; simpl; auto; try tauto.
  intros a [Ha|[]]. inversion Ha; subst. reflexivity.
Qed.

Lemma run_phases (es : list Event) : forall this : Popover,
  phasesInv this -> phasesInv (run this es).
Proof.
  induction es as [|e es IH]; intros this H; simpl; [exact H|].
  apply IH. now apply step_phases.
Qed.

Lemma phased_app (l1 l2 : list (@Call Conclusion)) :
  phased (l1 ++ l2) -> phased l2.
Proof.
  induction l1 as [|c l1 IH]; simpl; [auto|].
  destruct c; try exact IH; intros [_ H]; auto.
Qed.

(** C5. In every run of an instance, a request for workflow-run logs is
    made right after the jobs and log URLs of the same activation arrived,
    for the list that arrived, and that activation had requested them
    before.  When the jobs and log URLs of a suspended activation arrive
    while the subscription handle is set, the check list becomes the
    arrived list, [loadingActionWorkflows] becomes false,
    [loadingActionLogs] keeps its value (it stays true if it was), and the
    workflow-run logs are requested.  When these arrive while the handle is
    set, the check list becomes the arrived list and [loadingActionLogs]
    becomes false. *)
Theorem enrichment_phases_in_order :
  (forall (p : ICICheckRunPopoverProps) (es : list Event)
          (newer older : list Call) a repo ref l,
      log (run (new p) es)
      = (newer ++ GetActionsWorkflowRunLogs a repo ref l :: older)%list ->
      exists older',
        older = JobsAndLogURLSResult a l :: older'
        /\ existsb (isJobsRequestOf a) older' = true)
  /\ (forall (this : Popover) a d l,
      isSuspended (AwaitJobsAndLogURLS a) this = true ->
      statusSubscription this = Some d ->
      let this' := step this (JobsAndLogURLSSettled a l) in
      checkRuns (state this') = l
      /\ loadingActionWorkflows (state this') = false
      /\ loadingActionLogs (state this') = loadingActionLogs (state this)
      /\ (loadingActionLogs (state this) = true ->
          loadingActionLogs (state this') = true)
      /\ isSuspended (AwaitWorkflowRunLogs a) this' = true
      /\ log this'
         = GetActionsWorkflowRunLogs a (repository (props this))
             (getCommitRef (prNumber (props this))) l
             :: JobsAndLogURLSResult a l :: log this)
  /\ (forall (this : Popover) a d l,
      isSuspended (AwaitWorkflowRunLogs a) this = true ->
      statusSubscription this = Some d ->
      let this' := step this (WorkflowRunLogsSettled a l) in
      checkRuns (state this') = l
      /\ loadingActionLogs (state this') = false
      /\ loadingActionWorkflows (state this')
         = loadingActionWorkflows (state this)).
Proof.
  split; [|split].
  - intros p es newer older a repo ref l E.
    destruct (run_phases es (new p) (new_phases p)) as [H _].
    rewrite E in H. apply phased_app in H. simpl in H.
    destruct H as [[older' ->] H]. simpl in H. destruct H as [H _].
    exists older'. auto.
  - intros this a d l Hs Hd. simpl.
    rewrite (resumeJobsAndLogURLS_live a d) by assumption.
    repeat split; auto. apply isSuspended_In. simpl. auto.
  - intros this a d l Hs Hd. simpl.
    rewrite (resumeWorkflowRunLogs_live a d) by assumption. simpl.
    repeat split.
Qed.

(** *** Which continuations apply their result *)

(** C10. A continuation of [onStatus] looks at nothing but the
    subscription handle.  The handle is null in a freshly constructed
    instance.  A phase that completes while the handle is null leaves the
    state alone, makes no request and ends the activation; a phase that
    completes while the handle is set writes its result, whichever
    activation it belongs to: the resulting state is determined by the
    result and the previous state alone. *)
Theorem continuation_tests_subscription_only :
  (forall p : ICICheckRunPopoverProps, statusSubscription (new p) = None)
  /\ (forall (this : Popover) a l,
      isSuspended (AwaitJobsAndLogURLS a) this = true ->
      statusSubscription this = None ->
      let this' := step this (JobsAndLogURLSSettled a l) in
      state this' = state this
      /\ requests this' = requests this
      /\ suspended this' = removeFirst (AwaitJobsAndLogURLS a) (suspended this))
  /\ (forall (this : Popover) a l,
      isSuspended (AwaitWorkflowRunLogs a) this = true ->
      statusSubscription this = None ->
      let this' := step this (WorkflowRunLogsSettled a l) in
      state this' = state this /\ requests this' = requests this)
  /\ (forall (this : Popover) a d l,
      isSuspended (AwaitJobsAndLogURLS a) this = true ->
      statusSubscription this = Some d ->
      state (step this (JobsAndLogURLSSettled a l))
      = {| checkRuns := l;
           checkRunSummary := checkRunSummary (state this);
           loadingActionLogs := loadingActionLogs (state this);
           loadingActionWorkflows := false |})
  /\ (forall (this : Popover) a d l,
      isSuspended (AwaitWorkflowRunLogs a) this = true ->
      statusSubscription this = Some d ->
      state (step this (WorkflowRunLogsSettled a l))
      = {| checkRuns := l;
           checkRunSummary := checkRunSummary (state this);
           loadingActionLogs := false;
           loadingActionWorkflows := loadingActionWorkflows (state this) |}).
Proof.
  split; [|split; [|split; [|split]]].
  - intros p. unfold constructor, onStatusWith.
    destruct (List.length _ =? 0)%nat; reflexivity.
  - intros this a l Hs Hd. simpl.
    rewrite resumeJobsAndLogURLS_null by assumption. repeat split.
  - intros this a l Hs Hd. simpl.
    rewrite resumeWorkflowRunLogs_null by assumption. repeat split.
  - intros this a d l Hs Hd. simpl.
    now rewrite (resumeJobsAndLogURLS_live a d).
  - intros this a d l Hs Hd. simpl.
    now rewrite (resumeWorkflowRunLogs_live a d).
Qed.

(** *** The subscription *)

Lemma subscriptionInv_ext (this this' : Popover) :
  liveSubscriptions (log this') = liveSubscriptions (log this) ->
  (forall d, disposals d (log this') = disposals d (log this)) ->
  (forall d, subscriptions d (log this') = subscriptions d (log this)) ->
  statusSubscription this' = statusSubscription this ->
  nextDisposable this' = nextDisposable this ->
  subscriptionInv this -> subscriptionInv this'.
Proof.
  intros Hl Hd Hs Hh Hn (I1 & I2 & I3 & I4).
  unfold subscriptionInv. rewrite Hl, Hh, Hn.
  repeat split; try (rewrite ?Hd, ?Hs; apply I2); try assumption.
  - intros d Hd'. rewrite Hs. auto.
  - rewrite Hs. now apply I4.
  - rewrite Hd. now apply I4.
Qed.

Lemma unsubscribe_subscriptionInv (this : Popover) :
  subscriptionInv this -> subscriptionInv (unsubscribe this).
Proof.
  intros H. pose proof H as (I1 & I2 & I3 & I4). unfold unsubscribe.
  destruct (statusSubscription this) as [d|] eqn:E; [|exact H].
  destruct (I4 d eq_refl) as [Hs Hd]. simpl in I1.
  split; [|split; [|split]]; simpl.
  - rewrite I1. simpl. destruct (Nat.eq_dec d d); [reflexivity|contradiction].
  - intros d0. pose proof (I2 d0).
    destruct (Nat.eqb_spec d0 d) as [->|Hne]; lia.
  - exact I3.
  - discriminate.
Qed.

Lemma subscribe_subscriptionInv (this : Popover) :
  subscriptionInv this -> subscriptionInv (subscribe this).
Proof.
  intros H. apply unsubscribe_subscriptionInv in H.
  unfold subscribe. set (u := unsubscribe this) in *.
  assert (Hu : statusSubscription u = None) by apply unsubscribe_handle.
  destruct H as (I1 & I2 & I3 & I4). rewrite Hu in I1. simpl in I1.
  split; [|split; [|split]]; simpl.
  - now rewrite I1.
  - intros d. pose proof (I2 d) as B. pose proof (I3 d) as F.
    destruct (Nat.eqb_spec d (nextDisposable u)) as [->|Hne]; [|lia].
    rewrite F in * by lia. lia.
  - intros d Hd. destruct (Nat.eqb_spec d (nextDisposable u)); [lia|].
    apply I3. lia.
  - intros d Hd. inversion Hd; subst d. rewrite Nat.eqb_refl.
    pose proof (I2 (nextDisposable u)) as B.
    rewrite (I3 (nextDisposable u)) in * by lia. lia.
Qed.

Lemma rerunLoop_subscriptionInv (ids : list (option N)) :
  forall this : Popover,
  subscriptionInv this -> subscriptionInv (rerunLoop ids this).
Proof. induction ids as [|[i|] ids IH]; intros this H; simpl; auto. Qed.

Lemma step_subscriptionInv (this : Popover) (e : Event) :
  subscriptionInv this -> subscriptionInv (step this e).
Proof.
  intros H. destruct e as [|p| |check|a l|a l| |c]; simpl.
  - now apply subscribe_subscriptionInv.
  - unfold componentDidUpdate.
    destruct (identityChanged (props this) (props (withProps p this)));
      [apply subscribe_subscriptionInv|]; exact H.
  - now apply unsubscribe_subscriptionInv.
  - unfold onStatus, onStatusWith.
    destruct (List.length (checksOf check) =? 0)%nat; exact H.
  - unfold resumeJobsAndLogURLS.
    destruct (isSuspended (AwaitJobsAndLogURLS a) this); [|exact H].
    unfold onStatusAfterJobsAndLogURLS. simpl.
    destruct (statusSubscription this) eqn:E;
      (eapply subscriptionInv_ext; [..|exact H]); simpl; auto.
  - unfold resumeWorkflowRunLogs.
    destruct (isSuspended (AwaitWorkflowRunLogs a) this); [|exact H].
    unfold onStatusAfterWorkflowRunLogs. simpl.
    destruct (statusSubscription this) eqn:E;
      (eapply subscriptionInv_ext; [..|exact H]); simpl; auto.
  - now apply rerunLoop_subscriptionInv.
  - unfold viewCheckRunsOnGitHub. destruct (Js.nullish _ _); exact H.
Qed.

Lemma new_subscriptionInv (p : ICICheckRunPopoverProps) :
  subscriptionInv (new p).
Proof.
  unfold constructor, onStatusWith.
  destruct (List.length _ =? 0)%nat; repeat split; simpl; auto; discriminate.
Qed.

Lemma run_subscriptionInv (es : list Event) : forall this : Popover,
  subscriptionInv this -> subscriptionInv (run this es).
Proof.
  induction es as [|e es IH]; intros this H; simpl; [exact H|].
  apply IH. now apply step_subscriptionInv.
Qed.

(** C6. At every point of every run of an instance, the disposables that
    were handed out and not disposed of are exactly the one held in
    [statusSubscription], so there is at most one; every disposable is
    handed out at most once and disposed of at most once, and not before
    it was handed out.  Subscribing again disposes of the held one, once,
    and then asks for the new one, which is the only live one afterwards;
    unmounting leaves none. *)
Theorem one_live_subscription
    (p : ICICheckRunPopoverProps) (es : list Event) :
  let this := run (new p) es in
  liveSubscriptions (log this) = handleToList (statusSubscription this)
  /\ List.length (liveSubscriptions (log this)) <= 1
  /\ (forall d, disposals d (log this) <= subscriptions d (log this) <= 1)
  /\ log (subscribe this)
     = (SubscribeToCommitStatus (nextDisposable this) (repository (props this))
          (getCommitRef (prNumber (props this)))
          :: map Dispose (handleToList (statusSubscription this)) ++ log this)%list
  /\ liveSubscriptions (log (subscribe this)) = [nextDisposable this]
  /\ statusSubscription (subscribe this) = Some (nextDisposable this)
  /\ liveSubscriptions (log (step this Unmount)) = []
  /\ statusSubscription (step this Unmount) = None.
Proof.
  intros this.
  pose proof (run_subscriptionInv es (new p) (new_subscriptionInv p)) as H.
  fold this in H.
  pose proof (subscribe_subscriptionInv this H) as Hs.
  pose proof (unsubscribe_subscriptionInv this H) as Hu.
  assert (Ha : statusSubscription (subscribe this) = Some (nextDisposable this))
    by now rewrite subscribe_unfold.
  pose proof (unsubscribe_handle this) as Hb.
  destruct H as (I1 & I2 & _). destruct Hs as (S1 & _). destruct Hu as (U1 & _).
  rewrite Ha in S1. rewrite Hb in U1.
  repeat split; auto; try apply I2.
  - rewrite I1. destruct (statusSubscription this); simpl; lia.
  - now rewrite subscribe_unfold.
Qed.

(** *** Re-running *)

(** C9. [rerunJobs] makes one [rerequestCheckSuite] call for each non-null
    check-suite identifier of the current check list and no other call:
    the identifiers it asks for are pairwise distinct, and an identifier
    is among them exactly when some check run carries it.  Null
    identifiers produce no call, and the state is left alone. *)
Theorem rerunJobs_once_per_suite (this : Popover) :
  let ids := map checkSuiteId (checkRuns (state this)) in
  let suites := nonNull (Js.newSet ids) in
  log (rerunJobs this)
  = (map (RerequestCheckSuite (repository (props this))) (rev suites)
       ++ log this)%list
  /\ (forall suite, In suite suites <-> In (Some suite) ids)
  /\ NoDup suites
  /\ (forall suite, count_occ N.eq_dec suites suite
                    = if in_dec N.eq_dec suite (nonNull ids) then 1 else 0)
  /\ state (rerunJobs this) = state this.
Proof.
  intros ids suites.
  destruct (rerunLoop_spec (Js.newSet ids) this) as (H1 & _ & H3 & _).
  assert (Hin : forall suite, In suite suites <-> In (Some suite) ids).
  { intros suite. unfold suites. now rewrite nonNull_In, newSet_In. }
  assert (Hnd : NoDup suites).
  { apply nonNull_NoDup, newSet_NoDup. }
  repeat split; try assumption; try apply Hin.
  intros suite. destruct (in_dec N.eq_dec suite (nonNull ids)) as [H|H].
  - apply NoDup_count_occ'; [assumption|]. apply Hin. now apply nonNull_In.
  - apply count_occ_not_In. rewrite Hin. now rewrite <- nonNull_In.
Qed.

(** *** Changing the pull request or the repository *)

Lemma getCommitRef_inj (m n : N) : getCommitRef m = getCommitRef n -> m = n.
Proof.
  unfold getCommitRef. intros H. apply append_cancel_l in H.
  apply append_cancel_r in H. now apply ofN_inj.
Qed.

(** The condition of [componentDidUpdate] holds exactly when the hash of
    the repository or the number of the pull request changed. *)
Lemma identityChanged_iff (prevProps p : @ICICheckRunPopoverProps Conclusion) :
  identityChanged prevProps p = true <->
  hash (repository p) <> hash (repository prevProps)
  \/ prNumber p <> prNumber prevProps.
Proof.
  unfold identityChanged. rewrite orb_true_iff, !negb_true_iff.
  rewrite !String.eqb_neq. split; (intros [H|H]; [left; exact H | right]).
  - congruence.
  - intros E. apply H. now apply getCommitRef_inj.
Qed.

(** What an identity change does.  When the repository hash or the computed
    ref differs from the previous props, [componentDidUpdate] reads the
    cached status of the new pair, makes its checks (none when nothing is
    cached) the check list, disposes of the held subscription, if any, and
    then subscribes for the new pair.  It calls nothing else and writes
    nothing else. *)
Lemma componentDidUpdate_identity_change
    (prevProps : ICICheckRunPopoverProps) (this : Popover) :
  identityChanged prevProps (props this) = true ->
  let this' := componentDidUpdate prevProps this in
  checkRuns (state this')
  = checksOf (tryGetCommitStatus (dispatcher (props this)) (repository (props this))
                (getCommitRef (prNumber (props this))))
  /\ loadingActionLogs (state this') = loadingActionLogs (state this)
  /\ loadingActionWorkflows (state this') = loadingActionWorkflows (state this)
  /\ statusSubscription this' = Some (nextDisposable this)
  /\ log this'
     = SubscribeToCommitStatus (nextDisposable this) (repository (props this))
         (getCommitRef (prNumber (props this)))
         :: (map Dispose (handleToList (statusSubscription this)) ++ log this)%list
  /\ suspended this' = suspended this
  /\ nextActivation this' = nextActivation this.
Proof.
  intros H. cbv zeta. unfold componentDidUpdate.
  rewrite H, subscribe_unfold. repeat split.
Qed.

End Lifecycle.

(** ** The component on the sample data *)

(** C1 does not hold of the component: the summary is computed by the
    constructor and by nothing else ([checkRunSummary_fixed]).  Opened while
    the store has no checks for the pull request, then mounted, given a
    status with one successful check and the jobs of that check, the
    instance shows that check under an empty summary, where the summary of
    the shown list is "1 successful check". *)
Theorem checkRunSummary_stale_after_status :
  checkRuns (state Sample.filled) = [Sample.buildWithJobs]
  /\ checkRunSummary (state Sample.filled) = ""
  /\ Sample.summary (checkRuns (state Sample.filled)) = "1 successful check".
Proof. repeat split. Qed.

(** C3 does not hold of the component where nothing resolves: for a check
    without [htmlUrl] in a repository without [htmlURL], the interpolated
    string is never null, the guard never returns, and the browser is asked
    to open "null/pull/1". *)
Theorem viewCheckRunsOnGitHub_opens_null_url :
  htmlUrl Sample.build = None
  /\ htmlURL (repository (props Sample.mounted)) = None
  /\ openOnProviderSpec Sample.build Sample.mounted = None
  /\ log (viewCheckRunsOnGitHub Sample.build Sample.mounted)
     = OpenInBrowser "null/pull/1" :: log Sample.mounted.
Proof. repeat split. Qed.

(** C2 does not hold of the component: on a change of pull request
    [componentDidUpdate] takes the cached checks and re-subscribes, but does
    not call [onStatus] as the constructor does.  An instance that showed
    pull request 2, for which the subscription delivered no status, and is
    given pull request 1, for which [build] is cached, shows [build] with
    both loading flags false, has made no enrichment request and has no
    activation waiting, where an instance that restarts the pass has the
    flags true and an activation waiting for the jobs of [build]. *)
Theorem componentDidUpdate_starts_no_enrichment :
  identityChanged Sample.previousProps (props Sample.reused) = true
  /\ checksOf (tryGetCommitStatus (dispatcher (props Sample.reused))
                 (repository (props Sample.reused))
                 (getCommitRef (prNumber (props Sample.reused))))
     = [Sample.build]
  /\ checkRuns (state (componentDidUpdate Sample.previousProps Sample.reused))
     = [Sample.build]
  /\ suspended (componentDidUpdate Sample.previousProps Sample.reused) = []
  /\ existsb isEnrichmentRequest
       (log (componentDidUpdate Sample.previousProps Sample.reused)) = false
  /\ loadingActionLogs
       (state (componentDidUpdate Sample.previousProps Sample.reused)) = false
  /\ loadingActionWorkflows
       (state (componentDidUpdate Sample.previousProps Sample.reused)) = false
  /\ suspended (identityChangeSpec sampleAdjective sampleLowerCase Sample.reused)
     = [AwaitJobsAndLogURLS 0]
  /\ loadingActionLogs
       (state (identityChangeSpec sampleAdjective sampleLowerCase Sample.reused))
     = true
  /\ componentDidUpdate Sample.previousProps Sample.reused
     <> identityChangeSpec sampleAdjective sampleLowerCase Sample.reused.
Proof.
  repeat split.
  intros H. apply (f_equal suspended) in H. discriminate H.
Qed.

(** C8 does not hold of the component at construction: the constructor
    calls [onStatus] before the instance can take a [setState], so opened
    while the store has no checks for the pull request, the instance has an
    empty check list and has requested nothing, but both loading flags are
    still true.  The same status delivered through the subscription after
    mounting does clear them. *)
Theorem constructor_keeps_loading_flags :
  checksOf (tryGetCommitStatus (dispatcher (Sample.propsOf [] 1)) Sample.repo
              (getCommitRef 1)) = []
  /\ checkRuns (state Sample.openedEmpty) = []
  /\ suspended Sample.openedEmpty = []
  /\ log Sample.openedEmpty = []
  /\ loadingActionLogs (state Sample.openedEmpty) = true
  /\ loadingActionWorkflows (state Sample.openedEmpty) = true
  /\ loadingActionLogs
       (state (run Sample.openedEmpty
                 [Mount; StatusDelivered (Some {| checks := [] |})])) = false
  /\ loadingActionWorkflows
       (state (run Sample.openedEmpty
                 [Mount; StatusDelivered (Some {| checks := [] |})])) = false.
Proof. repeat split. Qed.

(** C5 as stated fails in a later activation: when a newer status arrives
    after both phases of the first activation completed, and its jobs and
    log URLs arrive while the subscription is held, [loadingActionLogs] is
    false afterwards, as it was before. *)
Lemma later_activation_logs_flag_cleared :
  isSuspended (AwaitJobsAndLogURLS 1) Sample.refreshed = true
  /\ statusSubscription Sample.refreshed = Some 0
  /\ loadingActionLogs (state Sample.refreshed) = false
  /\ checkRuns (state (step Sample.refreshed
                         (JobsAndLogURLSSettled 1 [Sample.buildWithJobs; Sample.tests])))
     = [Sample.buildWithJobs; Sample.tests]
  /\ loadingActionWorkflows
       (state (step Sample.refreshed
                 (JobsAndLogURLSSettled 1 [Sample.buildWithJobs; Sample.tests])))
     = false
  /\ loadingActionLogs
       (state (step Sample.refreshed
                 (JobsAndLogURLSSettled 1 [Sample.buildWithJobs; Sample.tests])))
     = false.
Proof. repeat split. Qed.

Lemma no_mutation_after_unmount_witness :
  forallb isSettlement
    [JobsAndLogURLSSettled 0 [Sample.buildWithJobs] : Event] = true
  /\ isSuspended (AwaitJobsAndLogURLS 0) (step Sample.mounted Unmount) = true
  /\ state (run (step Sample.mounted Unmount)
              [JobsAndLogURLSSettled 0 [Sample.buildWithJobs]])
     = state Sample.mounted.
Proof.
  split; [reflexivity|]. split; [reflexivity|].
  exact (proj1 (proj2 (proj2
    (no_mutation_after_unmount Sample.mounted
       [JobsAndLogURLSSettled 0 [Sample.buildWithJobs]] eq_refl)))).
Defined.

Lemma enrichment_phases_in_order_witness :
  (log (run (constructor sampleAdjective sampleLowerCase
               (Sample.propsOf [Sample.build] 1))
          [Mount; JobsAndLogURLSSettled 0 [Sample.buildWithJobs]])
   = [] ++ GetActionsWorkflowRunLogs 0 Sample.repo "refs/pull/1/head"
             [Sample.buildWithJobs]
        :: JobsAndLogURLSResult 0 [Sample.buildWithJobs] :: log Sample.mounted)%list
  /\ (isSuspended (AwaitJobsAndLogURLS 0) Sample.mounted = true
      /\ statusSubscription Sample.mounted = Some 0
      /\ loadingActionLogs (state Sample.mounted) = true)
  /\ checkRuns (state (step Sample.mounted
                         (JobsAndLogURLSSettled 0 [Sample.buildWithJobs])))
     = [Sample.buildWithJobs]
  /\ loadingActionWorkflows
       (state (step Sample.mounted
                 (JobsAndLogURLSSettled 0 [Sample.buildWithJobs]))) = false
  /\ loadingActionLogs
       (state (step Sample.mounted
                 (JobsAndLogURLSSettled 0 [Sample.buildWithJobs]))) = true
  /\ (isSuspended (AwaitWorkflowRunLogs 0) Sample.awaitingLogs = true
      /\ statusSubscription Sample.awaitingLogs = Some 0)
  /\ checkRuns (state (step Sample.awaitingLogs
                         (WorkflowRunLogsSettled 0 [Sample.buildWithLogs])))
     = [Sample.buildWithLogs]
  /\ loadingActionLogs (state (step Sample.awaitingLogs
                                 (WorkflowRunLogsSettled 0 [Sample.buildWithLogs])))
     = false.
Proof.
  destruct (enrichment_phases_in_order sampleAdjective sampleLowerCase)
    as (Order & Jobs & Logs).
  assert (E : log (run (constructor sampleAdjective sampleLowerCase
                          (Sample.propsOf [Sample.build] 1))
                     [Mount; JobsAndLogURLSSettled 0 [Sample.buildWithJobs]])
              = ([] ++ GetActionsWorkflowRunLogs 0 Sample.repo "refs/pull/1/head"
                         [Sample.buildWithJobs]
                    :: JobsAndLogURLSResult 0 [Sample.buildWithJobs]
                    :: log Sample.mounted)%list)
    by (vm_compute; reflexivity).
  assert (M1 : isSuspended (AwaitJobsAndLogURLS 0) Sample.mounted = true)
    by (vm_compute; reflexivity).
  assert (M2 : statusSubscription Sample.mounted = Some 0)
    by (vm_compute; reflexivity).
  assert (M3 : loadingActionLogs (state Sample.mounted) = true)
    by (vm_compute; reflexivity).
  assert (A1 : isSuspended (AwaitWorkflowRunLogs 0) Sample.awaitingLogs = true)
    by (vm_compute; reflexivity).
  assert (A2 : statusSubscription Sample.awaitingLogs = Some 0)
    by (vm_compute; reflexivity).
  destruct (Order _ _ _ _ _ _ _ _ E) as (older & _ & _).
  destruct (Jobs Sample.mounted 0 0 [Sample.buildWithJobs] M1 M2)
    as (J1 & J2 & _ & J4 & _).
  destruct (Logs Sample.awaitingLogs 0 0 [Sample.buildWithLogs] A1 A2)
    as (L1 & L2 & _).
  split; [exact E|]. split; [exact (conj M1 (conj M2 M3))|].
  split; [exact J1|]. split; [exact J2|]. split; [exact (J4 M3)|].
  split; [exact (conj A1 A2)|]. split; [exact L1 | exact L2].
Defined.

Lemma continuation_tests_subscription_only_witness :
  (isSuspended (AwaitJobsAndLogURLS 0) Sample.opened = true
   /\ statusSubscription Sample.opened = None)
  /\ state (step Sample.opened (JobsAndLogURLSSettled 0 [Sample.buildWithJobs]))
     = state Sample.opened
  /\ (isSuspended (AwaitWorkflowRunLogs 0) Sample.tornAwaitingLogs = true
      /\ statusSubscription Sample.tornAwaitingLogs = None)
  /\ state (step Sample.tornAwaitingLogs
              (WorkflowRunLogsSettled 0 [Sample.buildWithLogs]))
     = state Sample.tornAwaitingLogs
  /\ (isSuspended (AwaitJobsAndLogURLS 0) Sample.superseded = true
      /\ statusSubscription Sample.superseded = Some 0
      /\ checkRuns (state Sample.superseded) = [Sample.buildWithJobs; Sample.tests])
  /\ checkRuns (state (step Sample.superseded
                         (JobsAndLogURLSSettled 0 [Sample.buildWithJobs])))
     = [Sample.buildWithJobs]
  /\ loadingActionLogs (state (step Sample.awaitingLogs
                                 (WorkflowRunLogsSettled 0 [Sample.buildWithLogs])))
     = false.
Proof.
  destruct (continuation_tests_subscription_only sampleAdjective sampleLowerCase)
    as (_ & JobsNull & LogsNull & JobsLive & LogsLive).
  destruct (JobsNull Sample.opened 0 [Sample.buildWithJobs] eq_refl eq_refl)
    as (J & _).
  destruct (LogsNull Sample.tornAwaitingLogs 0 [Sample.buildWithLogs]
              eq_refl eq_refl) as (L & _).
  pose proof (JobsLive Sample.superseded 0 0 [Sample.buildWithJobs]
                eq_refl eq_refl) as S.
  pose proof (LogsLive Sample.awaitingLogs 0 0 [Sample.buildWithLogs]
                eq_refl eq_refl) as W.
  split; [repeat split|]. split; [exact J|].
  split; [repeat split|]. split; [exact L|].
  split; [repeat split|].
  split; [exact (f_equal checkRuns S) | exact (f_equal loadingActionLogs W)].
Defined.

Lemma getCombinedCheckSummary_correct_witness :
  (adjectiveOf sampleAdjective sampleLowerCase Sample.build = "successful"
   /\ adjectiveOf sampleAdjective sampleLowerCase Sample.tests = "failed")
  /\ Sample.summary [Sample.build; Sample.tests]
     = "1 successful, and 1 failed checks"
  /\ conclusionMapOf sampleAdjective sampleLowerCase [Sample.build; Sample.lint]
     = [("successful", 2)]
  /\ Sample.summary [Sample.build; Sample.lint] = "2 successful checks"
  /\ 2 <= List.length (conclusionMapOf sampleAdjective sampleLowerCase
                         [Sample.build; Sample.tests; Sample.lint])
  /\ Sample.summary [Sample.build; Sample.tests; Sample.lint]
     = "2 successful, and 1 failed checks"
  /\ Sample.summary [] = "".
Proof.
  destruct (getCombinedCheckSummary_correct sampleAdjective sampleLowerCase)
    as (_ & Empty & _ & Single & Several & Example).
  split; [split; reflexivity|].
  split; [exact (Example Sample.build Sample.tests eq_refl eq_refl)|].
  split; [reflexivity|].
  split; [exact (Single {| checks := [Sample.build; Sample.lint] |} _ _ eq_refl)|].
  split; [exact (le_n 2)|].
  split.
  - exact (Several {| checks := [Sample.build; Sample.tests; Sample.lint] |}
             (le_n 2)).
  - exact (Empty {| checks := [] |} eq_refl).
Defined.

(** * Further properties *)

Section MoreJsFacts.

Lemma mapSet_increment_sum (m : Js.StrMap) (k : string) :
  list_sum (map snd (Js.mapSet m k
                       (match Js.mapGet m k with Some n => n | None => 0 end + 1)))
  = list_sum (map snd m) + 1.
Proof.
  induction m as [|[k' v] m IH]; simpl; [reflexivity|].
  destruct (String.eqb k' k); simpl; [lia|]. rewrite IH. lia.
Qed.

Lemma append_nonempty_r (a b : string) : b <> "" -> a ++ b <> "".
Proof.
  intros Hb H. apply (f_equal String.length) in H.
  rewrite length_append in H. destruct b; [congruence|simpl in H; lia].
Qed.

Lemma firstSeen_uniform (a : string) (l : list string) :
  Forall (fun x => x = a) l -> firstSeen (a :: l) = [a].
Proof.
  intros H. simpl. f_equal.
  induction H as [|x l Hx Hl IH]; [reflexivity|]. subst x.
  simpl. rewrite String.eqb_refl. simpl. now rewrite IH.
Qed.

Lemma count_occ_uniform (a : string) (l : list string) :
  Forall (fun x => x = a) l -> count_occ string_dec l a = List.length l.
Proof.
  induction 1 as [|x l Hx Hl IH]; [reflexivity|]. subst x. simpl.
  destruct (string_dec a a); [now rewrite IH | contradiction].
Qed.

Lemma app_eq_self {A : Type} (l l' : list A) : (l ++ l')%list = l' -> l = [].
Proof.
  intros H. apply (f_equal (@List.length A)) in H. rewrite length_app in H.
  destruct l; [reflexivity | simpl in H; lia].
Qed.

Lemma nonNull_nil_iff (l : list (option N)) :
  nonNull l = [] <-> Forall (fun i => i = None) l.
Proof.
  induction l as [|[i|] l IH]; simpl.
  - split; auto.
  - split; [discriminate|]. intros H. inversion H; discriminate.
  - rewrite IH. split; [auto|]. intros H. now inversion H.
Qed.

End MoreJsFacts.

(** ** More on the summary *)

Section MoreSummary.

Context {Conclusion : Type}.
Variable getCheckRunConclusionAdjective : Conclusion -> string.
Variable toLocaleLowerCase : string -> string.

Local Abbreviation adjective :=
  (adjectiveOf getCheckRunConclusionAdjective toLocaleLowerCase).
Local Abbreviation conclusionMap :=
  (conclusionMapOf getCheckRunConclusionAdjective toLocaleLowerCase).
Local Abbreviation summary :=
  (getCombinedCheckSummary getCheckRunConclusionAdjective toLocaleLowerCase).

Lemma conclusionMapOf_sum (l : list IRefCheck) :
  list_sum (map snd (conclusionMap l)) = List.length l.
Proof.
  induction l as [|c l IH] using rev_ind; [reflexivity|].
  rewrite conclusionMapOf_snoc. unfold countConclusion.
  rewrite mapSet_increment_sum, IH, length_app. reflexivity.
Qed.

(** X1. The map that [getCombinedCheckSummary] builds has each adjective
    once, has exactly the adjectives of the checks, counts at least one
    check for each, and its counts add up to the number of checks. *)
Theorem conclusionMap_counts (l : list IRefCheck) :
  NoDup (map fst (conclusionMap l))
  /\ (forall a, In a (map fst (conclusionMap l)) <-> In a (map adjective l))
  /\ Forall (fun entry => 1 <= snd entry) (conclusionMap l)
  /\ list_sum (map snd (conclusionMap l)) = List.length l.
Proof.
  assert (K : map fst (conclusionMap l) = firstSeen (map adjective l)).
  { rewrite conclusionMapOf_groups. unfold groupsSpec.
    rewrite map_map. simpl. apply map_id. }
  rewrite K.
  split; [apply firstSeen_NoDup|]. split; [intros a; apply firstSeen_In|].
  split; [|apply conclusionMapOf_sum].
  rewrite conclusionMapOf_groups. unfold groupsSpec.
  apply Forall_forall. intros [a n] H. apply in_map_iff in H.
  destruct H as (b & E & Hb). inversion E; subst. cbn [snd].
  apply (proj1 (firstSeen_In _ _)) in Hb.
  apply (proj1 (count_occ_In string_dec _ _)) in Hb. lia.
Qed.

Lemma summarizeSpec_nonempty (l : list IRefCheck) :
  l <> [] ->
  summarizeSpec getCheckRunConclusionAdjective toLocaleLowerCase l <> "".
Proof.
  intros H. unfold summarizeSpec.
  pose proof (groupsSpec_nonempty getCheckRunConclusionAdjective
                toLocaleLowerCase l H) as G.
  destruct (groupsSpec _ _ l) as [|[a n] [|g gs]]; [congruence| |].
  - apply append_nonempty_r. discriminate.
  - cbn [map oxfordSpec]. apply append_nonempty_r. discriminate.
Qed.

(** X2. [getCombinedCheckSummary] returns the empty string exactly when
    there is no status or the status has no checks. *)
Theorem getCombinedCheckSummary_empty_iff
    (combinedCheck : option ICombinedRefCheck) :
  summary combinedCheck = "" <-> checksOf combinedCheck = [].
Proof.
  destruct combinedCheck as [combined|]; [|split; reflexivity].
  rewrite getCombinedCheckSummary_summarizeSpec. simpl. split.
  - intros H. destruct (checks combined) as [|c l] eqn:E; [reflexivity|].
    exfalso. revert H. apply summarizeSpec_nonempty. discriminate.
  - intros ->. reflexivity.
Qed.

(** X3. When all the checks have the same adjective, the summary is their
    number, the adjective and "check" for one check, "checks" for more. *)
Theorem getCombinedCheckSummary_uniform
    (c : IRefCheck) (l : list IRefCheck) (a : string) :
  Forall (fun x => adjective x = a) (c :: l) ->
  summary (Some {| checks := c :: l |})
  = Js.ofNat (S (List.length l)) ++ " " ++ a ++ " "
      ++ (match l with [] => "check" | _ => "checks" end).
Proof.
  intros H. rewrite getCombinedCheckSummary_summarizeSpec. cbn [checks].
  assert (Hu : Forall (fun x => x = a) (map adjective (c :: l))).
  { apply Forall_forall. intros x Hx. apply in_map_iff in Hx.
    destruct Hx as (y & <- & Hy). rewrite Forall_forall in H. now apply H. }
  assert (G : groupsSpec getCheckRunConclusionAdjective toLocaleLowerCase (c :: l)
              = [(a, S (List.length l))]).
  { unfold groupsSpec. cbv zeta.
    set (adjs := map adjective (c :: l)) in *.
    assert (F : firstSeen adjs = [a]).
    { subst adjs. cbn [map] in *. inversion Hu as [|? ? Ha Hl]; subst.
      now apply firstSeen_uniform. }
    rewrite F. cbn [map]. rewrite (count_occ_uniform a _ Hu).
    subst adjs. now rewrite length_map. }
  unfold summarizeSpec. rewrite G. destruct l; reflexivity.
Qed.

End MoreSummary.

(** ** More on the component *)

Section MoreLifecycle.

Context {Conclusion : Type}.
Variable getCheckRunConclusionAdjective : Conclusion -> string.
Variable toLocaleLowerCase : string -> string.

Local Abbreviation Popover := (@CICheckRunPopover Conclusion).
Local Abbreviation new :=
  (constructor getCheckRunConclusionAdjective toLocaleLowerCase).
Local Abbreviation rerunLoop :=
  (fold_left
     (fun (this : Popover) id =>
        match id with
        | None => this
        | Some id => call (RerequestCheckSuite (repository (props this)) id) this
        end)).

Lemma run_cons (this : Popover) (e : Event) (es : list Event) :
  run this (e :: es) = run (step this e) es.
Proof. reflexivity. Qed.

(** What every step keeps, every run keeps. *)
Lemma run_invariant (P : Popover -> Prop) :
  (forall this e, P this -> P (step this e)) ->
  forall es this, P this -> P (run this es).
Proof.
  intros Hstep es. induction es as [|e es IH]; intros this H; [exact H|].
  rewrite run_cons. apply IH, Hstep, H.
Qed.

(** X4. [getCommitRef] gives different refs to different pull request
    numbers. *)
Theorem getCommitRef_injective (m n : N) :
  getCommitRef m = getCommitRef n <-> m = n.
Proof. split; [apply getCommitRef_inj | now intros ->]. Qed.

(** X5. [componentDidUpdate] acts exactly when the hash of the repository
    or the number of the pull request differs from the previous props; when
    both are the same it leaves the instance as it is, whatever else changed
    in the props. *)
Theorem componentDidUpdate_acts_on_identity
    (prevProps : ICICheckRunPopoverProps) (this : Popover) :
  (identityChanged prevProps (props this) = true <->
   hash (repository (props this)) <> hash (repository prevProps)
   \/ prNumber (props this) <> prNumber prevProps)
  /\ (hash (repository (props this)) = hash (repository prevProps) ->
      prNumber (props this) = prNumber prevProps ->
      componentDidUpdate prevProps this = this).
Proof.
  split; [apply identityChanged_iff|]. intros Hh Hn.
  unfold componentDidUpdate.
  destruct (identityChanged prevProps (props this)) eqn:E; [|reflexivity].
  apply identityChanged_iff in E. tauto.
Qed.

(** X6. No lifecycle method, status, settled promise or click changes
    [checkRunSummary]: after any sequence of them it is what it was. *)
Theorem checkRunSummary_never_updated (this : Popover) (es : list Event) :
  checkRunSummary (state (run this es)) = checkRunSummary (state this).
Proof.
  revert this. induction es as [|e es IH]; intros this; [reflexivity|].
  now rewrite run_cons, IH, step_checkRunSummary.
Qed.

Lemma step_flags (this : Popover) (e : Event) :
  (loadingActionLogs (state this) = false ->
   loadingActionLogs (state (step this e)) = false)
  /\ (loadingActionWorkflows (state this) = false ->
      loadingActionWorkflows (state (step this e)) = false).
Proof.
  destruct e as [|p| |check|a l|a l| |c]; cbn [step].
  - unfold componentDidMount. rewrite subscribe_unfold. auto.
  - unfold componentDidUpdate.
    destruct (identityChanged _ _); [|auto].
    rewrite subscribe_unfold. auto.
  - unfold componentWillUnmount. rewrite unsubscribe_state. auto.
  - unfold onStatus, onStatusWith. destruct (List.length _ =? 0)%nat; auto.
  - unfold resumeJobsAndLogURLS.
    destruct (isSuspended _ this); [|auto].
    unfold onStatusAfterJobsAndLogURLS. simpl.
    destruct (statusSubscription this); auto.
  - unfold resumeWorkflowRunLogs.
    destruct (isSuspended _ this); [|auto].
    unfold onStatusAfterWorkflowRunLogs. simpl.
    destruct (statusSubscription this); auto.
  - unfold rerunJobs.
    destruct (rerunLoop_spec
                (Js.newSet (map checkSuiteId (checkRuns (state this)))) this)
      as (_ & _ & H & _).
    rewrite H. auto.
  - rewrite viewCheckRunsOnGitHub_opens. auto.
Qed.

(** X7. A loading flag that is false stays false: nothing sets
    [loadingActionLogs] or [loadingActionWorkflows] back to true, not even a
    new status that starts another enrichment or a change of pull request. *)
Theorem loading_flags_never_set_again (this : Popover) (es : list Event) :
  (loadingActionLogs (state this) = false ->
   loadingActionLogs (state (run this es)) = false)
  /\ (loadingActionWorkflows (state this) = false ->
      loadingActionWorkflows (state (run this es)) = false).
Proof.
  revert this. induction es as [|e es IH]; intros this; [auto|].
  rewrite run_cons. destruct (IH (step this e)) as [I1 I2].
  destruct (step_flags this e) as [S1 S2]. auto.
Qed.

Lemma step_flagsInv (this : Popover) (e : Event) :
  flagsInv this -> flagsInv (step this e).
Proof.
  intros [H1 H2]. destruct e as [|p| |check|a l|a l| |c]; cbn [step].
  - unfold componentDidMount. rewrite subscribe_unfold. split; eauto.
  - unfold componentDidUpdate.
    destruct (identityChanged _ _); [|split; eauto].
    rewrite subscribe_unfold. split; eauto.
  - unfold componentWillUnmount, unsubscribe.
    destruct (statusSubscription this); split; eauto.
  - unfold onStatus, onStatusWith. destruct (List.length _ =? 0)%nat.
    + split; simpl; eauto.
    + split; simpl; [exact H1|].
      intros a [Ha|Ha]; [discriminate | eauto].
  - unfold resumeJobsAndLogURLS.
    destruct (isSuspended _ this); [|split; eauto].
    unfold onStatusAfterJobsAndLogURLS. simpl.
    destruct (statusSubscription this); split; simpl; eauto.
    intros b Hb. apply removeFirst_In in Hb. eauto.
  - unfold resumeWorkflowRunLogs.
    destruct (isSuspended (AwaitWorkflowRunLogs a) this) eqn:E; [|split; eauto].
    apply isSuspended_In in E.
    unfold onStatusAfterWorkflowRunLogs. simpl.
    destruct (statusSubscription this); split; simpl; eauto;
      intros b Hb; apply removeFirst_In in Hb; eauto.
  - unfold rerunJobs.
    destruct (rerunLoop_spec
                (Js.newSet (map checkSuiteId (checkRuns (state this)))) this)
      as (_ & _ & Hs & _ & Hp).
    split; rewrite ?Hs, ?Hp; eauto.
  - rewrite viewCheckRunsOnGitHub_opens. split; eauto.
Qed.

Lemma new_flagsInv (p : ICICheckRunPopoverProps) : flagsInv (new p).
Proof.
  unfold constructor, onStatusWith, setStateInConstructor.
  destruct (List.length _ =? 0)%nat; split; simpl; try discriminate.
  - intros a [].
  - intros a [H|[]]. discriminate.
Qed.

(** X8. In every run of an instance, once [loadingActionLogs] is false so
    is [loadingActionWorkflows]: the logs are never reported as loaded while
    the workflows are still reported as loading. *)
Theorem logs_loaded_only_after_workflows
    (p : ICICheckRunPopoverProps) (es : list Event) :
  loadingActionLogs (state (run (new p) es)) = false ->
  loadingActionWorkflows (state (run (new p) es)) = false.
Proof.
  apply (run_invariant flagsInv step_flagsInv es (new p) (new_flagsInv p)).
Qed.

(** *** Requests *)

Lemma step_jobsRequests (this : Popover) (e : Event) :
  forallb jobsRequestNonEmpty (log this) = true ->
  forallb jobsRequestNonEmpty (log (step this e)) = true.
Proof.
  intros H. destruct e as [|p| |check|a l|a l| |c]; cbn [step].
  - unfold componentDidMount. rewrite subscribe_unfold. simpl.
    destruct (statusSubscription this); exact H.
  - unfold componentDidUpdate.
    destruct (identityChanged _ _); [|exact H].
    rewrite subscribe_unfold. simpl.
    destruct (statusSubscription this); exact H.
  - unfold componentWillUnmount, unsubscribe.
    destruct (statusSubscription this); exact H.
  - unfold onStatus, onStatusWith. destruct (List.length _ =? 0)%nat eqn:E; [exact H|].
    simpl. now rewrite E.
  - unfold resumeJobsAndLogURLS.
    destruct (isSuspended _ this); [|exact H].
    unfold onStatusAfterJobsAndLogURLS. simpl.
    destruct (statusSubscription this); exact H.
  - unfold resumeWorkflowRunLogs.
    destruct (isSuspended _ this); [|exact H].
    unfold onStatusAfterWorkflowRunLogs. simpl.
    destruct (statusSubscription this); exact H.
  - unfold rerunJobs.
    destruct (rerunLoop_spec
                (Js.newSet (map checkSuiteId (checkRuns (state this)))) this)
      as (Hl & _).
    rewrite Hl, forallb_app, H, andb_true_r.
    apply forallb_forall. intros x Hx. apply in_map_iff in Hx.
    destruct Hx as (i & <- & _). reflexivity.
  - rewrite viewCheckRunsOnGitHub_opens. exact H.
Qed.

(** X9. In every run of an instance, each request for jobs and log URLs
    carries at least one check: the dispatcher is never asked to enrich an
    empty list. *)
Theorem never_enriches_empty_list
    (p : ICICheckRunPopoverProps) (es : list Event) a repo ref branch l :
  In (GetCheckRunActionsJobsAndLogURLS a repo ref branch l)
     (log (run (new p) es)) ->
  l <> [].
Proof.
  assert (H : forallb jobsRequestNonEmpty (log (run (new p) es)) = true).
  { apply (run_invariant
             (fun this => forallb jobsRequestNonEmpty (log this) = true)
             step_jobsRequests).
    unfold constructor, onStatusWith.
    destruct (List.length _ =? 0)%nat eqn:E; [reflexivity|].
    simpl. now rewrite E. }
  intros Hin. rewrite forallb_forall in H. apply H in Hin. simpl in Hin.
  intros ->. discriminate.
Qed.

(** *** The subscription and the props *)

Lemma tracksProps_ext (this this' : Popover) :
  statusSubscription this' = statusSubscription this ->
  props this' = props this ->
  (forall d, subscribedTo d (log this') = subscribedTo d (log this)) ->
  tracksProps this -> tracksProps this'.
Proof.
  intros Hs Hp Hl H d Hd. rewrite Hs in Hd. rewrite Hp, Hl. auto.
Qed.

Lemma subscribedTo_rerequests (d : nat) (repo : GitHubRepository)
    (suites : list N) (l : list (@Call Conclusion)) :
  subscribedTo d (map (RerequestCheckSuite repo) suites ++ l) = subscribedTo d l.
Proof. induction suites as [|i suites IH]; [reflexivity | exact IH]. Qed.

Lemma subscribe_tracksProps (this : Popover) : tracksProps (subscribe this).
Proof.
  rewrite subscribe_unfold. intros d Hd. simpl in Hd. inversion Hd; subst d.
  exists (repository (props this)). simpl. rewrite Nat.eqb_refl. auto.
Qed.

Lemma step_tracksProps (this : Popover) (e : Event) :
  tracksProps this -> tracksProps (step this e).
Proof.
  intros H. destruct e as [|p| |check|a l|a l| |c]; cbn [step].
  - apply subscribe_tracksProps.
  - unfold componentDidUpdate.
    destruct (identityChanged (props this) (props (withProps p this))) eqn:E.
    + apply subscribe_tracksProps.
    + assert (Hh : hash (repository p) = hash (repository (props this))
                   /\ prNumber p = prNumber (props this)).
      { destruct (String.eqb_spec (hash (repository p))
                    (hash (repository (props this)))) as [Eh|Nh];
        destruct (N.eq_dec (prNumber p) (prNumber (props this))) as [En|Nn];
          auto; exfalso;
          assert (K : identityChanged (props this) (props (withProps p this)) = true)
            by (apply identityChanged_iff; simpl; auto);
          congruence. }
      destruct Hh as [Hh Hn]. intros d Hd. simpl in Hd.
      destruct (H d Hd) as (repo & Hr & Hq). exists repo. simpl.
      rewrite Hn, Hh. auto.
  - unfold componentWillUnmount. intros d Hd.
    rewrite unsubscribe_handle in Hd. discriminate.
  - unfold onStatus, onStatusWith. destruct (List.length _ =? 0)%nat;
      (eapply tracksProps_ext; [..|exact H]); reflexivity.
  - unfold resumeJobsAndLogURLS.
    destruct (isSuspended _ this); [|exact H].
    unfold onStatusAfterJobsAndLogURLS. simpl.
    destruct (statusSubscription this) eqn:E;
      (eapply tracksProps_ext; [..|exact H]); simpl; auto.
  - unfold resumeWorkflowRunLogs.
    destruct (isSuspended _ this); [|exact H].
    unfold onStatusAfterWorkflowRunLogs. simpl.
    destruct (statusSubscription this) eqn:E;
      (eapply tracksProps_ext; [..|exact H]); simpl; auto.
  - unfold rerunJobs.
    destruct (rerunLoop_spec
                (Js.newSet (map checkSuiteId (checkRuns (state this)))) this)
      as (Hl & Hp & _ & Hs & _).
    eapply tracksProps_ext; [exact Hs | exact Hp | | exact H].
    intros d. rewrite Hl. apply subscribedTo_rerequests.
  - rewrite viewCheckRunsOnGitHub_opens.
    eapply tracksProps_ext; [..|exact H]; reflexivity.
Qed.

(** X10. In every run of an instance, the subscription it holds was made
    for the ref of the pull request in its current props and for a
    repository with the hash of the one in its current props. *)
Theorem subscription_follows_props
    (p : ICICheckRunPopoverProps) (es : list Event) (d : nat) :
  statusSubscription (run (new p) es) = Some d ->
  exists repo,
    subscribedTo d (log (run (new p) es))
    = Some (repo, getCommitRef (prNumber (props (run (new p) es))))
    /\ hash repo = hash (repository (props (run (new p) es))).
Proof.
  apply (run_invariant tracksProps step_tracksProps es (new p)).
  intros d' Hd. unfold constructor, onStatusWith in Hd.
  destruct (List.length _ =? 0)%nat; discriminate.
Qed.

(** *** Re-running *)

(** X11. [rerunJobs] makes no call exactly when no check run of the current
    list has a check-suite identifier; in particular it does nothing at all
    when the list is empty, which is when the button is disabled. *)
Theorem rerunJobs_silent_iff (this : Popover) :
  (log (rerunJobs this) = log this
   <-> Forall (fun checkRun => checkSuiteId checkRun = None)
              (checkRuns (state this)))
  /\ (rerunButtonDisabled this = true -> rerunJobs this = this).
Proof.
  split.
  - unfold rerunJobs.
    destruct (rerunLoop_spec
                (Js.newSet (map checkSuiteId (checkRuns (state this)))) this)
      as (Hl & _).
    rewrite Hl. split.
    + intros H. apply app_eq_self in H. apply map_eq_nil in H.
      apply (f_equal (@rev N)) in H. rewrite rev_involutive in H. simpl in H.
      apply nonNull_nil_iff in H. rewrite Forall_forall in H.
      apply Forall_forall. intros c Hc.
      apply H. apply (proj2 (newSet_In _ _)). now apply in_map.
    + intros H.
      assert (K : nonNull (Js.newSet (map checkSuiteId (checkRuns (state this))))
                  = []).
      { apply nonNull_nil_iff. apply Forall_forall. intros i Hi.
        apply (proj1 (newSet_In _ _)) in Hi. apply in_map_iff in Hi.
        destruct Hi as (c & <- & Hc). rewrite Forall_forall in H. auto. }
      rewrite K. reflexivity.
  - unfold rerunButtonDisabled, rerunJobs. intros H.
    destruct (checkRuns (state this)); [reflexivity | discriminate].
Qed.

(** *** A change of pull request while an enrichment is in flight *)

(** X12. When the props change to another repository or pull request while
    an earlier [onStatus] is waiting for its jobs and log URLs, and these
    arrive afterwards, their list becomes the check list shown for the new
    props, and the workflow-run logs of that list are requested with the
    repository and ref of the new props. *)
Theorem stale_activation_writes_after_identity_change
    (this : Popover) (a : nat) (l : list IRefCheck)
    (p : ICICheckRunPopoverProps) :
  isSuspended (AwaitJobsAndLogURLS a) this = true ->
  identityChanged (props this) p = true ->
  let this' := run this [Update p; JobsAndLogURLSSettled a l] in
  checkRuns (state this') = l
  /\ loadingActionWorkflows (state this') = false
  /\ exists rest,
       log this'
       = GetActionsWorkflowRunLogs a (repository p) (getCommitRef (prNumber p)) l
           :: JobsAndLogURLSResult a l :: rest.
Proof.
  intros Hs Hi. cbv zeta. unfold run. cbn [fold_left step].
  unfold componentDidUpdate. cbn [props withProps]. rewrite Hi.
  rewrite subscribe_unfold.
  rewrite (resumeJobsAndLogURLS_live a (nextDisposable this));
    [|exact Hs|reflexivity].
  cbn. repeat split. eexists. reflexivity.
Qed.

End MoreLifecycle.

(** ** The further properties on the sample data *)

Lemma getCombinedCheckSummary_uniform_witness :
  Forall (fun x => adjectiveOf sampleAdjective sampleLowerCase x = "successful")
         [Sample.build; Sample.lint]
  /\ Sample.summary [Sample.build; Sample.lint] = "2 successful checks".
Proof.
  assert (H : Forall
                (fun x => adjectiveOf sampleAdjective sampleLowerCase x
                          = "successful")
                [Sample.build; Sample.lint])
    by (repeat constructor).
  split; [exact H|].
  exact (getCombinedCheckSummary_uniform sampleAdjective sampleLowerCase
           Sample.build [Sample.lint] "successful" H).
Defined.

Lemma componentDidUpdate_acts_on_identity_witness :
  (hash (repository (props (withProps Sample.renamedProps Sample.mounted)))
   = hash (repository (props Sample.mounted))
   /\ prNumber (props (withProps Sample.renamedProps Sample.mounted))
      = prNumber (props Sample.mounted))
  /\ branchName (props (withProps Sample.renamedProps Sample.mounted))
     <> branchName (props Sample.mounted)
  /\ componentDidUpdate (props Sample.mounted)
       (withProps Sample.renamedProps Sample.mounted)
     = withProps Sample.renamedProps Sample.mounted.
Proof.
  split; [split; reflexivity|]. split; [discriminate|].
  exact (proj2 (componentDidUpdate_acts_on_identity (props Sample.mounted)
                  (withProps Sample.renamedProps Sample.mounted))
           eq_refl eq_refl).
Defined.

Lemma loading_flags_never_set_again_witness :
  (loadingActionLogs (state Sample.loaded) = false
   /\ loadingActionWorkflows (state Sample.loaded) = false)
  /\ isSuspended (AwaitWorkflowRunLogs 1)
       (run Sample.loaded
          [StatusDelivered (Some {| checks := [Sample.build; Sample.tests] |});
           JobsAndLogURLSSettled 1 [Sample.buildWithJobs; Sample.tests]]) = true
  /\ loadingActionLogs
       (state (run Sample.loaded
                 [StatusDelivered (Some {| checks := [Sample.build; Sample.tests] |});
                  JobsAndLogURLSSettled 1 [Sample.buildWithJobs; Sample.tests]]))
     = false
  /\ loadingActionWorkflows
       (state (run Sample.loaded
                 [StatusDelivered (Some {| checks := [Sample.build; Sample.tests] |});
                  JobsAndLogURLSSettled 1 [Sample.buildWithJobs; Sample.tests]]))
     = false.
Proof.
  assert (L1 : loadingActionLogs (state Sample.loaded) = false)
    by (vm_compute; reflexivity).
  assert (L2 : loadingActionWorkflows (state Sample.loaded) = false)
    by (vm_compute; reflexivity).
  destruct (loading_flags_never_set_again Sample.loaded
              [StatusDelivered (Some {| checks := [Sample.build; Sample.tests] |});
               JobsAndLogURLSSettled 1 [Sample.buildWithJobs; Sample.tests]])
    as [Logs Workflows].
  split; [exact (conj L1 L2)|]. split; [vm_compute; reflexivity|].
  split; [exact (Logs L1) | exact (Workflows L2)].
Defined.

Lemma logs_loaded_only_after_workflows_witness :
  loadingActionLogs
    (state (run (Sample.new (Sample.propsOf [Sample.build] 1))
              [Mount; JobsAndLogURLSSettled 0 [Sample.buildWithJobs];
               WorkflowRunLogsSettled 0 [Sample.buildWithLogs]])) = false
  /\ loadingActionWorkflows
       (state (run (Sample.new (Sample.propsOf [Sample.build] 1))
                 [Mount; JobsAndLogURLSSettled 0 [Sample.buildWithJobs];
                  WorkflowRunLogsSettled 0 [Sample.buildWithLogs]])) = false.
Proof.
  assert (H : loadingActionLogs
                (state (run (Sample.new (Sample.propsOf [Sample.build] 1))
                          [Mount; JobsAndLogURLSSettled 0 [Sample.buildWithJobs];
                           WorkflowRunLogsSettled 0 [Sample.buildWithLogs]]))
              = false)
    by (vm_compute; reflexivity).
  split; [exact H|].
  exact (logs_loaded_only_after_workflows sampleAdjective sampleLowerCase
           (Sample.propsOf [Sample.build] 1)
           [Mount; JobsAndLogURLSSettled 0 [Sample.buildWithJobs];
            WorkflowRunLogsSettled 0 [Sample.buildWithLogs]] H).
Defined.

Lemma never_enriches_empty_list_witness :
  In (GetCheckRunActionsJobsAndLogURLS 0 Sample.repo "refs/pull/1/head" "main"
        [Sample.build])
     (log Sample.mounted)
  /\ [Sample.build] <> [].
Proof.
  assert (H : In (GetCheckRunActionsJobsAndLogURLS 0 Sample.repo
                    "refs/pull/1/head" "main" [Sample.build])
                 (log Sample.mounted))
    by (right; left; reflexivity).
  split; [exact H|].
  exact (never_enriches_empty_list sampleAdjective sampleLowerCase
           (Sample.propsOf [Sample.build] 1) [Mount] _ _ _ _ _ H).
Defined.

Lemma subscription_follows_props_witness :
  statusSubscription Sample.mounted = Some 0
  /\ exists repo,
       subscribedTo 0 (log Sample.mounted) = Some (repo, "refs/pull/1/head")
       /\ hash repo = hash Sample.repo.
Proof.
  split; [reflexivity|].
  exact (subscription_follows_props sampleAdjective sampleLowerCase
           (Sample.propsOf [Sample.build] 1) [Mount] 0 eq_refl).
Defined.

Lemma rerunJobs_silent_iff_witness :
  rerunButtonDisabled Sample.openedEmpty = true
  /\ rerunJobs Sample.openedEmpty = Sample.openedEmpty.
Proof.
  split; [reflexivity|].
  exact (proj2 (rerunJobs_silent_iff Sample.openedEmpty) eq_refl).
Defined.

Lemma stale_activation_writes_after_identity_change_witness :
  (isSuspended (AwaitJobsAndLogURLS 0) Sample.mounted = true
   /\ identityChanged (props Sample.mounted) Sample.previousProps = true)
  /\ checkRuns (state (run Sample.mounted
                         [Update Sample.previousProps;
                          JobsAndLogURLSSettled 0 [Sample.buildWithJobs]]))
     = [Sample.buildWithJobs]
  /\ props (run Sample.mounted
              [Update Sample.previousProps;
               JobsAndLogURLSSettled 0 [Sample.buildWithJobs]])
     = Sample.previousProps.
Proof.
  split; [split; reflexivity|].
  split; [|reflexivity].
  exact (proj1 (stale_activation_writes_after_identity_change Sample.mounted 0
                  [Sample.buildWithJobs] Sample.previousProps eq_refl eq_refl)).
Defined.
